(** * vidlah: the Electron shell, its preload bridge and its configuration

    A shallow embedding of the JavaScript under [src/electron] (the main
    process [main.js] and the preload script [preload.js]), of the
    configuration template [.env.example] and the script [setup.sh] that
    installs it, and of the parts of the capture-to-prediction pipeline that
    the specification describes but the repository does not contain.

    The first part holds the definitions, one module per source file; the
    second part holds the properties. *)

From Stdlib Require Import ZArith QArith Floats.
From stdpp Require Import gmap strings list.

#[local] Set Warnings "-register-all".
Local Open Scope string_scope.

(* ===================================================================== *)
(** * Part I: the model *)
(* ===================================================================== *)

(** ** JavaScript values

    The values that cross the IPC boundary.  Object literals keep their
    fields in insertion order, as JavaScript does. *)
Module JS.

Inductive value : Type :=
| VUndefined
| VBool (b : bool)
| VNum (n : Q)
| VStr (s : string)
| VBuffer (bytes : list Byte.byte)
| VObj (fields : list (string * value)).

(** [obj.k] on an object literal: the first field named [k]. *)
Fixpoint get_field (k : string) (fields : list (string * value)) : option value :=
  match fields with
  | [] => None
  | (k', v) :: rest => if String.eqb k k' then Some v else get_field k rest
  end.

Definition get (k : string) (v : value) : option value :=
  match v with
  | VObj fields => get_field k fields
  | _ => None
  end.

(** [Object.keys(v)]. *)
Definition keys (v : value) : list string :=
  match v with
  | VObj fields => map fst fields
  | _ => []
  end.


(** The outcome of an [async] function: the promise it returns either
    resolves with a value or rejects with an error. *)
Inductive promise (A E : Type) : Type :=
| Resolved (a : A)
| Rejected (e : E).
Arguments Resolved {A E} a.
Arguments Rejected {A E} e.

End JS.

(** ** [src/electron/main.js] *)
Module Main.
Import JS.

(** Electron's [Rectangle] and the fields of [Display] the program reads. *)
Record Rectangle : Type := mkRectangle
  { x : Z; y : Z; width : Z; height : Z }.

Record Display : Type := mkDisplay
  { id : Z;
    bounds : Rectangle;
    workArea : Rectangle;
    scaleFactor : Q }.

(** A display as the program holds it: a JavaScript object, that is, an
    identity (its address) together with its contents. *)
Record DisplayObject : Type := mkDisplayObject
  { address : nat;
    contents : Display }.

(** [a === b] on two objects compares their identities, not their
    contents. *)
Definition strict_equal (a b : DisplayObject) : bool :=
  Nat.eqb (address a) (address b).

Definition rect_value (r : Rectangle) : value :=
  VObj [("x", VNum (inject_Z (x r)));
        ("y", VNum (inject_Z (y r)));
        ("width", VNum (inject_Z (width r)));
        ("height", VNum (inject_Z (height r)))].

(** The [screen] module of Electron, as far as [main.js] calls it.  Each
    call runs against the platform's state and may change it. *)
Class Screen (S : Type) : Type :=
  { getAllDisplays : S -> list DisplayObject * S;
    getPrimaryDisplay : S -> DisplayObject * S }.

Section Handlers.
Context {S : Type} `{Screen S}.

(** The callback given to [displays.map] at main.js:68-74.  It calls
    [screen.getPrimaryDisplay()] once for every display. *)
Definition screen_info_record (display : DisplayObject) (s : S) : value * S :=
  let (primaryDisplay, s') := getPrimaryDisplay s in
  (VObj [("id", VNum (inject_Z (id (contents display))));
         ("bounds", rect_value (bounds (contents display)));
         ("workArea", rect_value (workArea (contents display)));
         ("scaleFactor", VNum (scaleFactor (contents display)));
         ("primary", VBool (strict_equal display primaryDisplay))],
   s').

(** [displays.map(...)], threading the platform state from left to
    right. *)
Fixpoint map_displays (displays : list DisplayObject) (s : S) : list value * S :=
  match displays with
  | [] => ([], s)
  | display :: rest =>
      let (record, s1) := screen_info_record display s in
      let (records, s2) := map_displays rest s1 in
      (record :: records, s2)
  end.

(** [ipcMain.handle('get-screen-info', ...)], main.js:66-75. *)
Definition get_screen_info (s : S) : list value * S :=
  let (displays, s1) := getAllDisplays s in
  map_displays displays s1.

End Handlers.

(** The objects [getPrimaryDisplay] returns in [n] successive calls. *)
Fixpoint primary_calls {S : Type} `{Screen S} (n : nat) (s : S) : list DisplayObject :=
  match n with
  | O => []
  | Datatypes.S n' =>
      let (p, s') := getPrimaryDisplay s in p :: primary_calls n' s'
  end.

(** The record [get-screen-info] builds for [display] when the call to
    [getPrimaryDisplay] returned [primaryDisplay]. *)
Definition record_of (display primaryDisplay : DisplayObject) : value :=
  VObj [("id", VNum (inject_Z (id (contents display))));
        ("bounds", rect_value (bounds (contents display)));
        ("workArea", rect_value (workArea (contents display)));
        ("scaleFactor", VNum (scaleFactor (contents display)));
        ("primary", VBool (strict_equal display primaryDisplay))].

(** Electron's own [screen]: the native layer keeps the display structs and
    converts them to a new JavaScript object on every call. *)
Record ElectronScreen : Type := mkElectronScreen
  { native_displays : list Display;
    native_primary : Display;
    next_address : nat }.

Fixpoint allocate (ds : list Display) (a : nat) : list DisplayObject :=
  match ds with
  | [] => []
  | d :: rest => mkDisplayObject a d :: allocate rest (Datatypes.S a)
  end.

#[export] Instance electron_screen : Screen ElectronScreen :=
  { getAllDisplays s :=
      (allocate (native_displays s) (next_address s),
       mkElectronScreen (native_displays s) (native_primary s)
         (next_address s + length (native_displays s)));
    getPrimaryDisplay s :=
      (mkDisplayObject (next_address s) (native_primary s),
       mkElectronScreen (native_displays s) (native_primary s)
         (Datatypes.S (next_address s))) }.

(** *** [capture-screen-region], main.js:77-85 *)

(** The handler is [async] and has a single [return]: it never rejects.
    [now] is the reading of [Date.now()]. *)
Definition capture_screen_region (now : Z) (region : value) : promise value string :=
  Resolved (VObj [("success", VBool true);
                  ("region", region);
                  ("timestamp", VNum (inject_Z now))]).

(** A region as the renderer passes it: (x, y, width, height) in screen
    pixel coordinates. *)
Definition region_value (r : Rectangle) : value := rect_value r.

(** Two rectangles share at least one pixel. *)
Definition intersects (r d : Rectangle) : bool :=
  (0 <? width r)%Z && (0 <? height r)%Z &&
  (x r <? x d + width d)%Z && (x d <? x r + width r)%Z &&
  (y r <? y d + height d)%Z && (y d <? y r + height r)%Z.

(** A region is on screen when it meets some display. *)
Definition on_screen (displays : list Display) (r : Rectangle) : bool :=
  existsb (fun d => intersects r (bounds d)) displays.


(** *** The navigation guard, main.js:93-102 *)

(** The event object a listener receives; [event.preventDefault()] sets
    its flag. *)
Record Event : Type := mkEvent { defaultPrevented : bool }.

Definition preventDefault (event : Event) : Event :=
  mkEvent true.

Definition app_origin : string := "http://localhost:3000".

(** A listener either returns, leaving the event as it made it, or
    throws ([None]). *)
Definition Listener : Type := Event -> string -> option Event.

Record WebContents : Type := mkWebContents
  { currentURL : string;
    will_navigate_listeners : list Listener }.

(** [emitter.emit]: the listeners run in registration order; one that
    throws ends the emit, the later ones do not run. *)
Fixpoint emit (ls : list Listener) (event : Event) (url : string) : Event :=
  match ls with
  | [] => event
  | l :: rest =>
      match l event url with
      | Some event' => emit rest event' url
      | None => event
      end
  end.

Section Navigation.
(** [new URL(s).origin], the platform's URL parser: [None] when the
    constructor throws. *)
Variable URL_origin : string -> option string.

(** The listener of main.js:95-101. *)
Definition will_navigate : Listener := fun event navigationUrl =>
  match URL_origin navigationUrl with
  | None => None
  | Some origin =>
      if negb (String.eqb origin app_origin)
         && negb (String.prefix "file://" navigationUrl)
      then Some (preventDefault event)
      else Some event
  end.

(** [app.on('web-contents-created', ...)], main.js:94: every web
    contents gets the listener when it is created. *)
Definition web_contents_created (contents : WebContents) : WebContents :=
  mkWebContents (currentURL contents)
                (will_navigate_listeners contents ++ [will_navigate])%list.

(** A web contents as the application sees it first. *)
Definition create_web_contents (url : string) : WebContents :=
  web_contents_created (mkWebContents url []).

(** A navigation the page starts raises [will-navigate]; it is carried
    out unless a listener prevented the default. *)
Definition navigation_prevented (contents : WebContents) (navigationUrl : string) : bool :=
  defaultPrevented
    (emit (will_navigate_listeners contents) (mkEvent false) navigationUrl).

Definition navigate (contents : WebContents) (navigationUrl : string) : WebContents :=
  if navigation_prevented contents navigationUrl
  then contents
  else mkWebContents navigationUrl (will_navigate_listeners contents).

Definition navigate_all (contents : WebContents) (urls : list string) : WebContents :=
  fold_left navigate urls contents.

(** The URLs the guard lets through. *)
Definition permitted (url : string) : bool :=
  match URL_origin url with
  | None => false
  | Some origin => String.eqb origin app_origin || String.prefix "file://" url
  end.

Definition parses (url : string) : bool :=
  match URL_origin url with
  | None => false
  | Some _ => true
  end.

End Navigation.

(** What [new URL(u).origin] gives for the URLs the examples use; [None]
    where the constructor throws. *)
Definition listed_urls : list (string * option string) :=
  [("http://localhost:3000", Some "http://localhost:3000");
   ("http://localhost:3000/settings", Some "http://localhost:3000");
   ("https://evil.example/", Some "https://evil.example");
   ("https://evil.example/login", Some "https://evil.example");
   ("file:///app/build/index.html", Some "null");
   ("file:///app/build/other.html", Some "null");
   ("file:///opt/app/src/build/index.html", Some "null");
   ("not a url", None)].

(** A URL parser for the examples, as a test would stub it: it answers
    for the listed URLs and knows no other.  The examples and witnesses
    pass it listed URLs only; the theorems hold for every parser. *)
Definition listed_origin (url : string) : option string :=
  match find (fun entry => String.eqb url (fst entry)) listed_urls with
  | Some (_, origin) => origin
  | None => None
  end.

(** *** Inputs for the examples *)

(** A 1920x1080 monitor, and a second, larger one to its right. *)
Definition left_display : Display :=
  mkDisplay 1 (mkRectangle 0 0 1920 1080) (mkRectangle 0 0 1920 1040) 1.

Definition right_display : Display :=
  mkDisplay 2 (mkRectangle 1920 0 2560 1440) (mkRectangle 1920 0 2560 1400)
    (5 # 4).

(** Both connected, the left one the primary display. *)
Definition two_display_screen : ElectronScreen :=
  mkElectronScreen [left_display; right_display] left_display 0.


Definition off_screen_region : Rectangle := mkRectangle 5000 5000 640 480.

(** A reading of [Date.now()]. *)
Definition a_time : Z := 1700000000000.

End Main.

(** ** [src/electron/preload.js] *)
Module Preload.

Section Emitter.
(** The functions the renderer hands over as callbacks. *)
Context {Callback : Type}.

(** What the renderer passes where the bridge expects a callback: a
    function, or any other value ([undefined] when the argument is left
    out). *)
Inductive argument : Type :=
| Function (f : Callback)
| NotFunction (v : JS.value).

(** The listener table of [ipcRenderer], an [EventEmitter]: for every
    channel the listeners in registration order. *)
Abbreviation emitter := (gmap string (list Callback)).

Definition listeners (channel : string) (e : emitter) : list Callback :=
  default [] (e !! channel).

Definition listenerCount (channel : string) (e : emitter) : nat :=
  length (listeners channel e).

(** [ipcRenderer.removeAllListeners(channel)]. *)
Definition removeAllListeners (channel : string) (e : emitter) : emitter :=
  delete channel e.

(** [ipcRenderer.on(channel, listener)].  [EventEmitter] checks the
    listener first and throws a [TypeError] when it is not a function,
    leaving the table as it is ([None]); a function is appended, also when
    it is registered already. *)
Definition on (channel : string) (listener : argument) (e : emitter)
  : option emitter :=
  match listener with
  | Function f => Some (<[channel := (listeners channel e ++ [f])%list]> e)
  | NotFunction _ => None
  end.

(** How a call through the bridge ends. *)
Inductive outcome : Type := Returned | Threw.

(** preload.js:20-23.  The channel is cleared before [on] is called, so
    when [on] throws the table stays cleared. *)
Definition onScreenCapture (callback : argument) (e : emitter)
  : emitter * outcome :=
  let cleared := removeAllListeners "screen-capture" e in
  match on "screen-capture" callback cleared with
  | Some registered => (registered, Returned)
  | None => (cleared, Threw)
  end.

(** preload.js:25-28. *)
Definition onPatternDetected (callback : argument) (e : emitter)
  : emitter * outcome :=
  let cleared := removeAllListeners "pattern-detected" e in
  match on "pattern-detected" callback cleared with
  | Some registered => (registered, Returned)
  | None => (cleared, Threw)
  end.

(** What the renderer can do to the listener table through
    [window.electronAPI]. *)
Inductive call : Type :=
| OnScreenCapture (callback : argument)
| OnPatternDetected (callback : argument)
| RemoveAllListeners (channel : string).

Definition run_call (e : emitter) (c : call) : emitter * outcome :=
  match c with
  | OnScreenCapture callback => onScreenCapture callback e
  | OnPatternDetected callback => onPatternDetected callback e
  | RemoveAllListeners channel => (removeAllListeners channel e, Returned)
  end.

(** The table a call leaves, whether it returned or threw. *)
Definition perform (e : emitter) (c : call) : emitter :=
  fst (run_call e c).

Definition perform_all (e : emitter) (calls : list call) : emitter :=
  fold_left perform calls e.

End Emitter.

End Preload.

(** ** [.env.example] and the fusion weights it configures *)
Module Env.
Import Stdlib.Strings.Ascii.

(** The lines of [.env.example]. *)
Definition env_example : list string :=
  [
     "# Environment Variables for AI Trading Overlay System";
     "";
     "# API Keys";
     "ALPHA_VANTAGE_API_KEY=your_alpha_vantage_key_here";
     "FINNHUB_API_KEY=your_finnhub_key_here";
     "NEWS_API_KEY=your_news_api_key_here";
     "TWITTER_BEARER_TOKEN=your_twitter_bearer_token_here";
     "";
     "# Reddit API (for social sentiment)";
     "REDDIT_CLIENT_ID=your_reddit_client_id_here";
     "REDDIT_CLIENT_SECRET=your_reddit_client_secret_here";
     "REDDIT_USER_AGENT=vidlah_trading_overlay_1.0";
     "";
     "# Database Configuration";
     "DATABASE_URL=sqlite:///./trading_data.db";
     "REDIS_URL=redis://localhost:6379";
     "";
     "# Application Settings";
     "DEBUG=True";
     "LOG_LEVEL=INFO";
     "CAPTURE_INTERVAL=5";
     "PREDICTION_INTERVAL=60";
     "";
     "# Screen Capture Settings";
     "DEFAULT_CAPTURE_REGION=0,0,1920,1080";
     "CHART_DETECTION_THRESHOLD=0.8";
     "";
     "# AI Model Settings";
     "PATTERN_CONFIDENCE_THRESHOLD=0.7";
     "SENTIMENT_WEIGHT=0.3";
     "TECHNICAL_WEIGHT=0.7";
     "";
     "# WebSocket Settings";
     "WEBSOCKET_PORT=8000";
     "FRONTEND_PORT=3000"
  ].

(** A user's [.env] that moves the split to 0.6/0.4. *)
Definition custom_env : list string :=
  ["# my settings";
   "TECHNICAL_WEIGHT=0.6";
   "SENTIMENT_WEIGHT=0.4"].

(** *** The settings reader

    The code that reads the variables ([src/config/settings.py] in the
    README's project tree) is missing from the repository, which has only
    the template, the scripts that install it and [python-dotenv] among
    the requirements.  What follows is written from section 8 of the
    specification ("technical/sentiment weight split ... externally
    settable, defaults as stated") and section 9 (the 0.7/0.3 default
    split), for environment files made of [KEY=VALUE] lines as the
    template is. *)

(** Modelled from the spec: the text before and after the first
    occurrence of a character, used by the missing reader to cut a line
    at [=] and a numeral at the decimal point. *)
Fixpoint split_on (sep : Ascii.ascii) (s : string) : option (string * string) :=
  match s with
  | EmptyString => None
  | String c rest =>
      if Ascii.eqb c sep then Some (EmptyString, rest)
      else match split_on sep rest with
           | Some (before, after) => Some (String c before, after)
           | None => None
           end
  end.

(** Modelled from the spec: blanks, which the missing reader drops around
    keys and values. *)
Definition is_blank (c : Ascii.ascii) : bool :=
  Ascii.eqb c " "%char || Ascii.eqb c "009"%char.

(** Modelled from the spec: a text without its leading blanks. *)
Fixpoint lstrip (s : string) : string :=
  match s with
  | EmptyString => EmptyString
  | String c rest => if is_blank c then lstrip rest else s
  end.

(** Modelled from the spec: a text without its trailing blanks. *)
Fixpoint rstrip (s : string) : string :=
  match s with
  | EmptyString => EmptyString
  | String c rest =>
      match rstrip rest with
      | EmptyString => if is_blank c then EmptyString else String c EmptyString
      | kept => String c kept
      end
  end.

(** Modelled from the spec: a text without the blanks around it. *)
Definition strip (s : string) : string := lstrip (rstrip s).

(** Modelled from the spec: a text without its last character, when that
    character is the given one. *)
Fixpoint without_last (q : Ascii.ascii) (s : string) : option string :=
  match s with
  | EmptyString => None
  | String c EmptyString => if Ascii.eqb c q then Some EmptyString else None
  | String c rest => option_map (String c) (without_last q rest)
  end.

(** Modelled from the spec: a value written between a pair of single or
    double quotes stands for the text between them. *)
Definition unquote (s : string) : string :=
  match s with
  | EmptyString => EmptyString
  | String q rest =>
      if Ascii.eqb q "'"%char || Ascii.eqb q "034"%char
      then default s (without_last q rest)
      else s
  end.

(** Modelled from the spec: a line of an environment file, [KEY=VALUE];
    blank lines, lines that start with [#] and lines without [=] carry
    no binding.  Inline comments and escapes inside quotes, which the
    template does not use, are left out. *)
Definition parse_line (line : string) : option (string * string) :=
  match lstrip line with
  | EmptyString => None
  | String c _ as text =>
      if Ascii.eqb c "#"%char then None
      else match split_on "="%char text with
           | Some (k, v) => Some (strip k, unquote (strip v))
           | None => None
           end
  end.

(** Modelled from the spec: the variables an environment file sets.
    Reading the file top to bottom, a later binding of a key replaces an
    earlier one. *)
Definition load (lines : list string) : gmap string string :=
  fold_left (fun env line =>
               match parse_line line with
               | Some (k, v) => <[k := v]> env
               | None => env
               end) lines ∅.

(** Modelled from the spec: the value of a decimal digit. *)
Definition digit (c : Ascii.ascii) : option Z :=
  let n := Ascii.nat_of_ascii c in
  if (48 <=? n)%nat && (n <=? 57)%nat then Some (Z.of_nat (n - 48)) else None.

(** Modelled from the spec: the number a run of decimal digits writes. *)
Fixpoint digits (s : string) (acc : Z) : option Z :=
  match s with
  | EmptyString => Some acc
  | String c rest =>
      match digit c with
      | Some d => digits rest (10 * acc + d)%Z
      | None => None
      end
  end.

(** Modelled from the spec: the number a plain decimal numeral writes,
    [digits] or [digits.digits], the form the template uses; any other
    text is refused. *)
Definition parse_decimal (s : string) : option Q :=
  match split_on "."%char s with
  | None =>
      if String.eqb s "" then None
      else match digits s 0 with
           | Some n => Some (inject_Z n)
           | None => None
           end
  | Some (whole, frac) =>
      if String.eqb whole "" || String.eqb frac "" then None
      else match digits (whole ++ frac) 0 with
           | Some n => Some (Qmake n (Pos.pow 10 (Pos.of_nat (String.length frac))))
           | None => None
           end
  end.

(** Modelled from the spec: the two weights of the Fusion Engine
    (section 4.6). *)
Record Weights : Type := mkWeights
  { technical : Q;
    sentiment : Q }.

(** Modelled from the spec: the default split, 0.7 technical and 0.3
    sentiment (section 9). *)
Definition default_weights : Weights := mkWeights (7 # 10) (3 # 10).

(** Modelled from the spec: one weight, the number its variable is set to
    or the default when the variable is not set; [None] when the variable
    is set to a text that is no decimal numeral. *)
Definition weight (env : gmap string string) (name : string) (fallback : Q)
  : option Q :=
  match env !! name with
  | Some text => parse_decimal text
  | None => Some fallback
  end.

(** Modelled from the spec: the fusion weights in effect under an
    environment, each externally settable and defaulting on its own. *)
Definition weights (env : gmap string string) : option Weights :=
  match weight env "TECHNICAL_WEIGHT" (technical default_weights),
        weight env "SENTIMENT_WEIGHT" (sentiment default_weights) with
  | Some t, Some s => Some (mkWeights t s)
  | _, _ => None
  end.


End Env.

(** ** The capture loop of the specification (section 4.1 and section 7)

    The repository holds no capture loop: [main.js] has only the IPC
    placeholder above.  The loop is written here from the specification. *)
Module CaptureLoop.

(** Modelled from the spec: the number of consecutive capture failures
    that escalates ("three consecutive failures escalate to a paused
    state"); the capture loop itself is missing from the repository. *)
Definition failure_limit : nat := 3.

(** Modelled from the spec: the state of the missing capture loop for one
    region, either running with a count of the failures since the last
    successful capture or paused. *)
Inductive status : Type :=
| Running (consecutive_failures : nat)
| Paused.

(** Modelled from the spec: the ways the missing capture backend fails
    (section 6); the loop sees each as CaptureUnavailable. *)
Inductive capture_error : Type :=
| PermissionDenied
| RegionInvalid.

Section Loop.
Context {Frame : Type}.

(** Modelled from the spec: what the missing capture operation yields
    at a tick, [capture(region) -> Frame | fails(CaptureUnavailable)]. *)
Inductive outcome : Type :=
| Captured (frame : Frame)
| CaptureUnavailable (cause : capture_error).

(** Modelled from the spec: what drives the missing loop, the periodic
    tick (with what the capture attempt would yield) and the
    operator's reset. *)
Inductive input : Type :=
| Tick (o : outcome)
| Reset.

(** Modelled from the spec: what the missing loop reports upward, one
    Frame event per successful tick, each failure, and the escalation
    with its reason code. *)
Inductive report : Type :=
| FrameEvent (frame : Frame)
| FailureReported (cause : capture_error)
| PersistentCaptureFailure (cause : capture_error).

(** Modelled from the spec: one step of the missing capture loop.  A
    successful capture emits its Frame and clears the count; a failure
    is reported and counted, and the one that reaches the limit pauses
    the loop; a paused loop attempts no capture until it is reset. *)
Definition step (st : status) (i : input) : status * list report :=
  match st, i with
  | Running _, Tick (Captured frame) => (Running 0, [FrameEvent frame])
  | Running n, Tick (CaptureUnavailable cause) =>
      if (S n <? failure_limit)%nat
      then (Running (S n), [FailureReported cause])
      else (Paused, [FailureReported cause; PersistentCaptureFailure cause])
  | Running n, Reset => (Running n, [])
  | Paused, Tick _ => (Paused, [])
  | Paused, Reset => (Running 0, [])
  end.

(** Modelled from the spec: the missing loop run over a sequence of
    inputs, collecting the reports. *)
Fixpoint run (st : status) (inputs : list input) : status * list report :=
  match inputs with
  | [] => (st, [])
  | i :: rest =>
      let (st1, out1) := step st i in
      let (st2, out2) := run st1 rest in
      (st2, (out1 ++ out2)%list)
  end.

End Loop.

End CaptureLoop.

(** ** The dispatcher of the specification (section 4.7)

    The repository holds no dispatcher; it is written here from the
    specification. *)
Module Dispatcher.

(** Modelled from the spec: the (symbol, region) pair that keys the
    cycles of the missing dispatcher. *)
Definition key : Type := string * nat.

Section Dispatch.
(** The findings, levels and predictions of a result. *)
Context {Payload : Type}.

(** Modelled from the spec: the AnalysisResult of section 3, which the
    missing dispatcher publishes. *)
Record AnalysisResult : Type := mkAnalysisResult
  { symbol : string;
    region_id : nat;
    cycle_timestamp : Z;
    payload : Payload }.

(** Modelled from the spec: the state of the missing dispatcher, the
    cycles in flight (each with the time of the tick that started it)
    and the results published so far, oldest first. *)
Record state : Type := mkState
  { in_flight : list (key * Z);
    published : list AnalysisResult }.

(** Modelled from the spec: the missing dispatcher before any tick, with
    no cycle in flight and nothing published. *)
Definition init : state := mkState [] [].

(** Modelled from the spec: what reaches the missing dispatcher, a
    capture tick for a region, the end of a cycle with its result, and
    the end of a cycle that a stage aborted. *)
Inductive event : Type :=
| CaptureTick (k : key) (time : Z)
| CycleCompleted (k : key) (result : Payload)
| CycleAborted (k : key).

(** Modelled from the spec: the missing dispatcher's test for "a region
    still being processed". *)
Definition busy (k : key) (cycles : list (key * Z)) : bool :=
  bool_decide (k ∈ cycles.*1).

(** Modelled from the spec: the missing dispatcher's removal of the
    cycle in flight for [k] when that cycle ends. *)
Fixpoint take (k : key) (cycles : list (key * Z)) : option (Z * list (key * Z)) :=
  match cycles with
  | [] => None
  | (k', t) :: rest =>
      if bool_decide (k = k') then Some (t, rest)
      else match take k rest with
           | Some (t', rest') => Some (t', (k', t) :: rest')
           | None => None
           end
  end.

(** Modelled from the spec: one step of the missing dispatcher.  "A new
    capture tick for a region still being processed is dropped, not
    queued"; a completed cycle publishes its result once; an aborted
    cycle publishes nothing. *)
Definition step (d : state) (e : event) : state :=
  match e with
  | CaptureTick k time =>
      if busy k (in_flight d) then d
      else mkState ((k, time) :: in_flight d) (published d)
  | CycleCompleted k result =>
      match take k (in_flight d) with
      | Some (time, rest) =>
          mkState rest
            (published d ++ [mkAnalysisResult (fst k) (snd k) time result])%list
      | None => d
      end
  | CycleAborted k =>
      match take k (in_flight d) with
      | Some (_, rest) => mkState rest (published d)
      | None => d
      end
  end.

(** Modelled from the spec: the missing dispatcher run over a sequence
    of events. *)
Definition run (d : state) (events : list event) : state :=
  fold_left step events d.



End Dispatch.

(** *** Inputs for the examples *)

Definition sample_key : key := ("BTCUSD", 1%nat).


End Dispatcher.

(** ** The bridge calls, channel by channel *)
Module Bridge.
Import Preload.

Section Calls.
Context {Callback : Type}.

(** The one channel a call through the bridge acts on (preload.js:20-33). *)
Definition target (c : @call Callback) : string :=
  match c with
  | OnScreenCapture _ => "screen-capture"
  | OnPatternDetected _ => "pattern-detected"
  | RemoveAllListeners channel => channel
  end.

(** The listeners a callback argument stands for: the function itself, or
    none when it is not a function. *)
Definition offered (callback : @argument Callback) : list Callback :=
  match callback with
  | Function f => [f]
  | NotFunction _ => []
  end.

(** The listeners a call leaves on its channel. *)
Definition registered (c : @call Callback) : list Callback :=
  match c with
  | OnScreenCapture callback => offered callback
  | OnPatternDetected callback => offered callback
  | RemoveAllListeners _ => []
  end.

End Calls.

End Bridge.

(** ** The IPC channels between [preload.js] and [main.js] *)
Module Ipc.
Import JS Main.

(** The methods of [window.electronAPI] that call [ipcRenderer.invoke]
    (preload.js:7-17), with their arguments. *)
Inductive method : Type :=
| getScreenInfo
| captureScreenRegion (region : value)
| setCaptureRegion (region : value)
| minimize
| maximize
| close
| getAppVersion.

(** The channel a method invokes. *)
Definition channel (m : method) : string :=
  match m with
  | getScreenInfo => "get-screen-info"
  | captureScreenRegion _ => "capture-screen-region"
  | setCaptureRegion _ => "set-capture-region"
  | minimize => "minimize-window"
  | maximize => "maximize-window"
  | close => "close-window"
  | getAppVersion => "get-app-version"
  end.

(** The arguments passed along after the channel. *)
Definition arguments (m : method) : list value :=
  match m with
  | captureScreenRegion region => [region]
  | setCaptureRegion region => [region]
  | _ => []
  end.

(** What a handler returns: a value, or an array of values. *)
Inductive reply : Type :=
| Single (v : value)
| Array (vs : list value).

Section MainProcess.
Context {S : Type} `{Screen S}.

(** The main process as the handlers see it: the platform's screen, the
    clock behind [Date.now()], and what [console.log] has printed. *)
Record MainState : Type := mkMainState
  { screen : S;
    clock : Z;
    console : list (list value) }.

Definition Handler : Type :=
  list value -> MainState -> promise reply string * MainState.

(** A handler's first parameter after the event; [undefined] when the
    caller passed none. *)
Definition first_argument (args : list value) : value :=
  match args with
  | [] => VUndefined
  | a :: _ => a
  end.

(** main.js:66-75. *)
Definition handle_get_screen_info : Handler := fun _ st =>
  let (records, s') := get_screen_info (screen st) in
  (Resolved (Array records), mkMainState s' (clock st) (console st)).

(** main.js:77-85. *)
Definition handle_capture_screen_region : Handler := fun args st =>
  (match capture_screen_region (clock st) (first_argument args) with
   | Resolved v => Resolved (Single v)
   | Rejected e => Rejected e
   end,
   st).

(** main.js:87-91: the region is logged and not kept. *)
Definition handle_set_capture_region : Handler := fun args st =>
  (Resolved (Single (VObj [("success", VBool true)])),
   mkMainState (screen st) (clock st)
     (console st ++ [[VStr "Setting capture region:"; first_argument args]])%list).

(** The handlers [main.js] registers with [ipcMain.handle], in the order
    of the file. *)
Definition handlers : list (string * Handler) :=
  [("get-screen-info", handle_get_screen_info);
   ("capture-screen-region", handle_capture_screen_region);
   ("set-capture-region", handle_set_capture_region)].

Fixpoint find_handler (name : string) (hs : list (string * Handler)) : option Handler :=
  match hs with
  | [] => None
  | (name', h) :: rest =>
      if String.eqb name name' then Some h else find_handler name rest
  end.

(** [ipcRenderer.invoke(channel, ...args)]: the handler registered for
    the channel runs; with none registered the promise rejects. *)
Definition invoke (m : method) (st : MainState) : promise reply string * MainState :=
  match find_handler (channel m) handlers with
  | Some h => h (arguments m) st
  | None =>
      (Rejected ("No handler registered for '" ++ channel m ++ "'"), st)
  end.

End MainProcess.

End Ipc.

(** ** The window and application lifecycle, main.js:5-63 *)
Module Lifecycle.
Import JS Main.

(** The options [createWindow] passes to [new BrowserWindow]. *)
Record WebPreferences : Type := mkWebPreferences
  { nodeIntegration : bool;
    contextIsolation : bool;
    enableRemoteModule : bool;
    preload : string }.

Record WindowOptions : Type := mkWindowOptions
  { width : Z;
    height : Z;
    minWidth : Z;
    minHeight : Z;
    webPreferences : WebPreferences;
    titleBarStyle : string;
    show : bool }.

(** A browser window: what it was created with, the URL it was told to
    load, whether it is visible, whether the [once('ready-to-show')]
    listener is still waiting, and whether its DevTools are open. *)
Record BrowserWindow : Type := mkBrowserWindow
  { window_id : nat;
    options : WindowOptions;
    loadedURL : string;
    visible : bool;
    show_when_ready : bool;
    devTools : bool }.

(** The application: its environment ([process.platform],
    [electron-is-dev], [__dirname]), whether it is ready, the open windows
    ([BrowserWindow.getAllWindows()]), the module variable [mainWindow]
    (the window it refers to, or null), and whether [app.quit()] was
    called. *)
Record App : Type := mkApp
  { platform : string;
    isDev : bool;
    dirname : string;
    ready : bool;
    windows : list BrowserWindow;
    mainWindow : option nat;
    has_quit : bool;
    next_window_id : nat }.

Section WithPath.
(** Node's [path.join]. *)
Variable path_join : string -> string -> string.

(** main.js:29-31. *)
Definition startUrl (dev : bool) (dir : string) : string :=
  if dev then "http://localhost:3000"
  else "file://" ++ path_join dir "../build/index.html".

(** main.js:13-26. *)
Definition window_options (dir : string) : WindowOptions :=
  mkWindowOptions 1400 900 1200 700
    (mkWebPreferences false true false (path_join dir "preload.js"))
    "hiddenInset" false.

(** [createWindow], main.js:7-48.  It reads the primary display's work
    area size and makes no use of it.  Before the application is ready a
    window cannot be constructed: the call throws ([None]). *)
Definition createWindow (a : App) : option App :=
  if ready a then
    let w := mkBrowserWindow (next_window_id a)
               (window_options (dirname a))
               (startUrl (isDev a) (dirname a))
               false true (isDev a) in
    Some (mkApp (platform a) (isDev a) (dirname a) (ready a)
            (windows a ++ [w])%list (Some (window_id w)) (has_quit a)
            (Datatypes.S (next_window_id a)))
  else None.

(** A call from an event listener: an exception leaves the state as it
    was. *)
Definition attempt (f : App -> option App) (a : App) : App :=
  match f a with
  | Some a' => a'
  | None => a
  end.

(** main.js:53-57. *)
Definition on_window_all_closed (a : App) : App :=
  if negb (String.eqb (platform a) "darwin")
  then mkApp (platform a) (isDev a) (dirname a) (ready a) (windows a)
         (mainWindow a) true (next_window_id a)
  else a.

(** main.js:59-63. *)
Definition on_activate (a : App) : App :=
  if (length (windows a) =? 0)%nat then attempt createWindow a else a.

(** main.js:45-47, the listener every window gets for ['closed']. *)
Definition on_closed (a : App) : App :=
  mkApp (platform a) (isDev a) (dirname a) (ready a) (windows a)
    None (has_quit a) (next_window_id a).

(** main.js:36-38, the listener for ['ready-to-show'].  It shows the
    window the variable [mainWindow] refers to when it runs, and throws
    when the variable is null. *)
Definition show_window (w : BrowserWindow) : BrowserWindow :=
  mkBrowserWindow (window_id w) (options w) (loadedURL w) true
    (show_when_ready w) (devTools w).

Definition on_ready_to_show (a : App) : option App :=
  match mainWindow a with
  | Some main =>
      Some (mkApp (platform a) (isDev a) (dirname a) (ready a)
              (map (fun w => if (window_id w =? main)%nat then show_window w else w)
                   (windows a))
              (mainWindow a) (has_quit a) (next_window_id a))
  | None => None
  end.

(** A listener registered with [once] is removed when it is called. *)
Definition disarm (id : nat) (a : App) : App :=
  mkApp (platform a) (isDev a) (dirname a) (ready a)
    (map (fun w =>
            if (window_id w =? id)%nat
            then mkBrowserWindow (window_id w) (options w) (loadedURL w)
                   (visible w) false (devTools w)
            else w)
         (windows a))
    (mainWindow a) (has_quit a) (next_window_id a).

Definition waiting_to_show (id : nat) (a : App) : bool :=
  existsb (fun w => (window_id w =? id)%nat && show_when_ready w) (windows a).

(** What happens to the application: it becomes ready, the user
    activates it, a window is ready to show, the user closes a window. *)
Inductive event : Type :=
| Ready
| Activate
| ReadyToShow (id : nat)
| CloseWindow (id : nat).

Definition has_window (id : nat) (a : App) : bool :=
  existsb (fun w => (window_id w =? id)%nat) (windows a).

Definition remove_window (id : nat) (a : App) : App :=
  mkApp (platform a) (isDev a) (dirname a) (ready a)
    (filter (fun w => window_id w <> id) (windows a))
    (mainWindow a) (has_quit a) (next_window_id a).

(** One event.  [app.whenReady()] resolves once; a closed window leaves
    the list of windows, its ['closed'] listener runs, and when no window
    is left ['window-all-closed'] is emitted; after [app.quit()] nothing
    more runs. *)
Definition step (a : App) (e : event) : App :=
  if has_quit a then a
  else
    match e with
    | Ready =>
        if ready a then a
        else attempt createWindow
               (mkApp (platform a) (isDev a) (dirname a) true (windows a)
                  (mainWindow a) (has_quit a) (next_window_id a))
    | Activate => on_activate a
    | ReadyToShow id =>
        if waiting_to_show id a
        then attempt on_ready_to_show (disarm id a)
        else a
    | CloseWindow id =>
        if has_window id a then
          let a1 := on_closed (remove_window id a) in
          if (length (windows a1) =? 0)%nat then on_window_all_closed a1 else a1
        else a
    end.

Definition run (a : App) (events : list event) : App :=
  fold_left step events a.

(** The application as the process starts. *)
Definition launch (os : string) (dev : bool) (dir : string) : App :=
  mkApp os dev dir false [] None false 0.

(** A window as [createWindow] makes it, up to being shown. *)
Definition as_created (a : App) (w : BrowserWindow) : Prop :=
  options w = window_options (dirname a) /\
  loadedURL w = startUrl (isDev a) (dirname a) /\
  devTools w = isDev a /\
  (visible w = true -> show_when_ready w = false).

(** What holds of the application at every moment. *)
Definition consistent (a : App) : Prop :=
  (ready a = false -> windows a = [] /\ has_quit a = false) /\
  (has_quit a = true -> platform a <> "darwin" /\ windows a = []) /\
  (ready a = true -> windows a = [] -> platform a <> "darwin" ->
   has_quit a = true) /\
  match windows a with
  | [] => mainWindow a = None
  | [w] => mainWindow a = Some (window_id w) /\ as_created a w
  | _ => False
  end.

End WithPath.

(** *** Node's [path.join] on POSIX, for the examples *)
Import Stdlib.Strings.Ascii.

(** The segments of a path between its slashes. *)
Fixpoint segments (path : string) (current : string) : list string :=
  match path with
  | EmptyString => [current]
  | String c rest =>
      if Ascii.eqb c "/"%char then current :: segments rest EmptyString
      else segments rest (current ++ String c EmptyString)
  end.

(** [normalizeString]: empty segments and [.] are dropped, [..] takes
    the segment before it away, or stays when there is none to take and
    the path is relative.  The result is kept last segment first. *)
Definition normalize_step (allowAboveRoot : bool) (kept : list string)
    (segment : string) : list string :=
  if String.eqb segment "" || String.eqb segment "." then kept
  else if String.eqb segment ".." then
    match kept with
    | top :: below =>
        if String.eqb top ".."
        then (if allowAboveRoot then segment :: kept else kept)
        else below
    | [] => if allowAboveRoot then [segment] else []
    end
  else segment :: kept.

Fixpoint ends_with_slash (path : string) : bool :=
  match path with
  | EmptyString => false
  | String c EmptyString => Ascii.eqb c "/"%char
  | String _ rest => ends_with_slash rest
  end.

(** [path.normalize]. *)
Definition normalize (path : string) : string :=
  if String.eqb path "" then "."
  else
    let absolute := String.prefix "/" path in
    let trailing := ends_with_slash path in
    let body :=
      String.concat "/"
        (rev (fold_left (normalize_step (negb absolute))
                (segments path EmptyString) [])) in
    if String.eqb body "" then
      if absolute then "/" else if trailing then "./" else "."
    else
      (if absolute then "/" else "") ++ body ++ (if trailing then "/" else "").

(** [path.join] of two segments: the non-empty ones are put together with
    a slash and the result is normalized. *)
Definition posix_join (a b : string) : string :=
  if String.eqb a "" then (if String.eqb b "" then "." else normalize b)
  else if String.eqb b "" then normalize a
  else normalize (a ++ "/" ++ b).

End Lifecycle.

(** ** [setup.sh] *)
Module Setup.

(** What a path of the project directory holds: a regular file with its
    lines, or a directory. *)
Inductive entry : Type :=
| File (content : list string)
| Dir.

Section Script.
(** The programs the script starts, as functions on the project
    directory: [python3 -m venv venv], [pip install -r requirements.txt]
    and [npm install].  What they do is the machine's business. *)
Variable python_venv : gmap string entry -> gmap string entry.
Variable pip_install : gmap string entry -> gmap string entry.
Variable npm_install : gmap string entry -> gmap string entry.

(** [[ -d path ]]. *)
Definition is_dir (path : string) (fs : gmap string entry) : bool :=
  match fs !! path with
  | Some Dir => true
  | _ => false
  end.

(** [[ -f path ]]. *)
Definition is_file (path : string) (fs : gmap string entry) : bool :=
  match fs !! path with
  | Some (File _) => true
  | _ => false
  end.

(** [cp src dst] for a source in the project directory: a regular file is
    copied, into [dst] when that is a directory and over [dst] otherwise;
    without one the command fails and changes nothing. *)
Definition cp (src dst : string) (fs : gmap string entry) : gmap string entry :=
  match fs !! src with
  | Some (File content) =>
      match fs !! dst with
      | Some Dir => <[dst ++ "/" ++ src := File content]> fs
      | _ => <[dst := File content]> fs
      end
  | _ => fs
  end.

(** [mkdir -p path]: the directory exists afterwards, unless a regular
    file has the name, in which case the command fails for it. *)
Definition mkdir_p (path : string) (fs : gmap string entry) : gmap string entry :=
  match fs !! path with
  | Some (File _) => fs
  | _ => <[path := Dir]> fs
  end.

(** setup.sh:8-12. *)
Definition create_venv (st : gmap string entry * list string)
  : gmap string entry * list string :=
  let (fs, out) := st in
  if negb (is_dir "venv" fs)
  then (python_venv fs, out ++ ["📦 Creating Python virtual environment..."])%list
  else st.

(** setup.sh:14-20; [source venv/bin/activate] changes the shell only. *)
Definition install_python (st : gmap string entry * list string)
  : gmap string entry * list string :=
  let (fs, out) := st in
  (pip_install fs,
   out ++ ["🔧 Activating virtual environment...";
           "📥 Installing Python dependencies..."])%list.

(** setup.sh:22-27. *)
Definition create_env (st : gmap string entry * list string)
  : gmap string entry * list string :=
  let (fs, out) := st in
  if negb (is_file ".env" fs)
  then (cp ".env.example" ".env" fs,
        out ++ ["⚙️ Creating environment file...";
                "🔑 Please edit .env file with your API keys!"])%list
  else st.

(** setup.sh:29-33. *)
Definition install_node (st : gmap string entry * list string)
  : gmap string entry * list string :=
  let (fs, out) := st in
  if is_file "package.json" fs
  then (npm_install fs, out ++ ["📦 Installing Node.js dependencies..."])%list
  else st.

(** setup.sh:35-45. *)
Definition create_directories (st : gmap string entry * list string)
  : gmap string entry * list string :=
  let (fs, out) := st in
  (mkdir_p "logs" (mkdir_p "models" (mkdir_p "data" fs)),
   out ++ ["✅ Setup complete!";
           "";
           "Next steps:";
           "1. Edit .env file with your API keys";
           "2. Run: python main.py (to start backend)";
           "3. Run: npm start (to start frontend)";
           "";
           "See ACTION_PLAN.md for detailed instructions."])%list.

(** The script from top to bottom: it has no [set -e], so every step runs
    whatever the steps before it did.  The result is the project directory
    and the lines printed. *)
Definition setup_sh (fs : gmap string entry) : gmap string entry * list string :=
  create_directories
    (install_node
       (create_env
          (install_python
             (create_venv
                (fs, ["🚀 AI Trading Overlay System - Quick Start";
                      "========================================"]))))).

(** The three programs leave a path of the project directory as it
    is. *)
Definition untouched (path : string) : Prop :=
  (forall fs, python_venv fs !! path = fs !! path) /\
  (forall fs, pip_install fs !! path = fs !! path) /\
  (forall fs, npm_install fs !! path = fs !! path).

End Script.

(** Programs for the examples: [python3 -m venv] makes the directory,
    [pip] works inside it, [npm install] makes [node_modules]. *)
Definition sample_venv (fs : gmap string entry) : gmap string entry :=
  mkdir_p "venv" fs.

Definition sample_pip (fs : gmap string entry) : gmap string entry := fs.

Definition sample_npm (fs : gmap string entry) : gmap string entry :=
  mkdir_p "node_modules" fs.

(** A fresh checkout that holds the template, and one where the user has
    written a [.env] already. *)
Definition fresh_checkout : gmap string entry :=
  {[ ".env.example" := File Env.env_example;
     "package.json" := File ["{}"] ]}.

Definition configured_checkout : gmap string entry :=
  <[".env" := File Env.custom_env]> fresh_checkout.

End Setup.

(* ===================================================================== *)
(** * Part II: the properties *)
(* ===================================================================== *)

(** ** [get-screen-info] *)
Section ScreenInfo.
Import JS Main.
Context {S : Type} `{Screen S}.

Lemma map_displays_records (displays : list DisplayObject) (s : S) :
  fst (map_displays displays s)
  = zip_with record_of displays (primary_calls (length displays) s).
Proof.
  revert s. induction displays as [|display rest IH]; intros s; simpl.
  - reflexivity.
  - unfold screen_info_record.
    destruct (getPrimaryDisplay s) as [p s1].
    specialize (IH s1).
    destruct (map_displays rest s1) as [records s2]. simpl in *.
    rewrite IH. reflexivity.
Qed.

Lemma primary_calls_length (n : nat) (s : S) :
  length (primary_calls n s) = n.
Proof.
  revert s. induction n as [|n IH]; intros s; simpl.
  - reflexivity.
  - destruct (getPrimaryDisplay s) as [p s1]. simpl. by rewrite IH.
Qed.

Lemma strict_equal_true (a b : DisplayObject) :
  strict_equal a b = true <-> address a = address b.
Proof. unfold strict_equal. apply Nat.eqb_eq. Qed.

(** X1.  On any platform, [get-screen-info] returns one record per display
    that [getAllDisplays] reported, in the same order.  Every record has
    exactly the fields id, bounds, workArea, scaleFactor and primary, the
    first four copied from the display, and primary is true precisely
    when the display is the same object ([===]) as the one the call of
    [getPrimaryDisplay] made for that record returned. *)
Theorem get_screen_info_records (s : S) :
  let displays := fst (getAllDisplays s) in
  let primaries := primary_calls (length displays) (snd (getAllDisplays s)) in
  let records := fst (get_screen_info s) in
  length records = length displays /\
  forall i display,
    displays !! i = Some display ->
    exists record primaryDisplay primary,
      records !! i = Some record /\
      primaries !! i = Some primaryDisplay /\
      keys record = ["id"; "bounds"; "workArea"; "scaleFactor"; "primary"] /\
      get "id" record = Some (VNum (inject_Z (id (contents display)))) /\
      get "bounds" record = Some (rect_value (bounds (contents display))) /\
      get "workArea" record = Some (rect_value (workArea (contents display))) /\
      get "scaleFactor" record = Some (VNum (scaleFactor (contents display))) /\
      get "primary" record = Some (VBool primary) /\
      (primary = true <-> address display = address primaryDisplay).
Proof.
  unfold get_screen_info.
  destruct (getAllDisplays s) as [displays s1]. simpl.
  rewrite map_displays_records.
  split.
  - rewrite length_zip_with, primary_calls_length. lia.
  - intros i display Hi.
    destruct (primary_calls (length displays) s1 !! i) as [p|] eqn:Hp.
    + exists (record_of display p), p, (strict_equal display p).
      split.
      { rewrite lookup_zip_with, Hi. simpl. by rewrite Hp. }
      repeat split; try reflexivity; apply strict_equal_true.
    + apply lookup_ge_None in Hp. rewrite primary_calls_length in Hp.
      apply lookup_lt_Some in Hi. lia.
Qed.

End ScreenInfo.

(** *** On Electron's own [screen] *)
Section ElectronScreenInfo.
Import JS Main.

Lemma allocate_address (ds : list Display) (a : nat) (d : DisplayObject) :
  d ∈ allocate ds a -> (a <= address d < a + length ds)%nat.
Proof.
  revert a. induction ds as [|d0 rest IH]; intros a Hd; simpl in *.
  - by apply not_elem_of_nil in Hd.
  - apply elem_of_cons in Hd as [->|Hd]; simpl; [lia|].
    apply IH in Hd. lia.
Qed.

Lemma electron_map_displays (displays : list DisplayObject) (s : ElectronScreen) :
  Forall (fun d => (address d < next_address s)%nat) displays ->
  Forall (fun r => get "primary" r = Some (VBool false))
         (fst (map_displays displays s)).
Proof.
  revert s. induction displays as [|display rest IH]; intros s Hlt; simpl.
  - constructor.
  - apply Forall_cons in Hlt as [Hd Hrest].
    set (s1 := mkElectronScreen (native_displays s) (native_primary s)
                 (Datatypes.S (next_address s))).
    specialize (IH s1).
    destruct (map_displays rest s1) as [records s2] eqn:Hm. simpl in *.
    constructor.
    + simpl. unfold strict_equal. simpl.
      replace (address display =? next_address s)%nat with false; [done|].
      symmetry. apply Nat.eqb_neq. lia.
    + apply IH. eapply Forall_impl; [exact Hrest|]. simpl. intros; lia.
Qed.

(** Electron makes a new object at every call of [getPrimaryDisplay], so
    none of the objects [getAllDisplays] returned before is that object:
    no record is marked primary. *)
Lemma electron_primary_never_set (s : ElectronScreen) :
  Forall (fun r => get "primary" r = Some (VBool false))
         (fst (get_screen_info s)).
Proof.
  unfold get_screen_info. simpl.
  apply electron_map_displays. simpl.
  apply Forall_forall. intros d Hd.
  apply allocate_address in Hd. lia.
Qed.

(** C10.  On a machine with two monitors, the first of them the primary
    display, [get-screen-info] returns one record per monitor, each with
    the five fields, but [primary] is false in both, also in the record of
    the primary display: the object that came from [getAllDisplays] is
    compared by identity with the new object [getPrimaryDisplay]
    returns. *)
Theorem primary_display_not_marked :
  native_primary two_display_screen = left_display /\
  native_displays two_display_screen = [left_display; right_display] /\
  fst (get_screen_info two_display_screen)
  = [VObj [("id", VNum 1);
           ("bounds", rect_value (mkRectangle 0 0 1920 1080));
           ("workArea", rect_value (mkRectangle 0 0 1920 1040));
           ("scaleFactor", VNum 1);
           ("primary", VBool false)];
     VObj [("id", VNum 2);
           ("bounds", rect_value (mkRectangle 1920 0 2560 1440));
           ("workArea", rect_value (mkRectangle 1920 0 2560 1400));
           ("scaleFactor", VNum (5 # 4));
           ("primary", VBool false)]].
Proof. repeat split. Qed.

End ElectronScreenInfo.

(** ** [capture-screen-region] *)
Section Capture.
Import JS Main.

(** The handler resolves for every region, with [success: true], the region
    it was given and the time; it never rejects. *)
Lemma capture_screen_region_resolves (now : Z) (region : value) :
  exists v,
    capture_screen_region now region = Resolved v /\
    get "success" v = Some (VBool true) /\
    get "region" v = Some region /\
    get "timestamp" v = Some (VNum (inject_Z now)) /\
    keys v = ["success"; "region"; "timestamp"].
Proof. eexists. repeat split. Qed.


(** C1, the case that refutes the claim as stated.  A region that lies on
    no display is answered with a successful result, not with an error. *)
Lemma capture_off_screen_region_succeeds :
  on_screen [left_display; right_display] off_screen_region = false /\
  capture_screen_region a_time (region_value off_screen_region)
  = Resolved (VObj [("success", VBool true);
                    ("region", region_value off_screen_region);
                    ("timestamp", VNum (inject_Z a_time))]).
Proof. split; reflexivity. Qed.

(** C1 (as amended).  For every region passed to it, at every time, the
    handler of main.js:77-85 returns a successful result and never fails:
    the promise resolves with [success: true] and the region it was given,
    and is never rejected, also for a region that lies on no display
    whatever the displays are.  Nothing is captured and no error is
    reported upward. *)
Theorem capture_never_fails (now : Z) (region : value) :
  (forall error, capture_screen_region now region <> Rejected error) /\
  (exists v,
     capture_screen_region now region = Resolved v /\
     get "success" v = Some (VBool true) /\
     get "region" v = Some region) /\
  (forall displays r,
     region = region_value r ->
     on_screen displays r = false ->
     exists v,
       capture_screen_region now region = Resolved v /\
       get "success" v = Some (VBool true)).
Proof.
  destruct (capture_screen_region_resolves now region)
    as (v & Hv & Hsuccess & Hregion & _).
  split; [|split].
  - intros error. rewrite Hv. discriminate.
  - by exists v.
  - intros displays r _ _. by exists v.
Qed.



End Capture.

(** ** The navigation guard *)
Section Guard.
Import JS Main.
Variable URL_origin : string -> option string.

Lemma will_navigate_decision (event : Event) (url origin : string) :
  URL_origin url = Some origin ->
  will_navigate URL_origin event url
  = Some (if permitted URL_origin url then event else preventDefault event).
Proof.
  intros Ho. unfold will_navigate, permitted. rewrite Ho.
  destruct (String.eqb origin app_origin), (String.prefix "file://" url);
    reflexivity.
Qed.

Lemma navigate_listeners (contents : WebContents) (url : string) :
  will_navigate_listeners (navigate contents url)
  = will_navigate_listeners contents.
Proof. unfold navigate. by destruct (navigation_prevented contents url). Qed.

Lemma navigate_all_listeners (urls : list string) (contents : WebContents) :
  will_navigate_listeners (navigate_all contents urls)
  = will_navigate_listeners contents.
Proof.
  unfold navigate_all. revert contents.
  induction urls as [|u rest IH]; intros contents; simpl.
  - reflexivity.
  - rewrite IH. apply navigate_listeners.
Qed.

(** With the guard as its only listener, a web contents prevents exactly
    the navigations that are not permitted. *)
Lemma guarded_prevented (contents : WebContents) (url : string) :
  will_navigate_listeners contents = [will_navigate URL_origin] ->
  parses URL_origin url = true ->
  navigation_prevented contents url = negb (permitted URL_origin url).
Proof.
  intros Hl Hp. unfold navigation_prevented. rewrite Hl. simpl.
  unfold parses in Hp. destruct (URL_origin url) as [origin|] eqn:Ho; [|done].
  rewrite (will_navigate_decision _ _ origin Ho).
  by destruct (permitted URL_origin url).
Qed.

Lemma guarded_navigate_permitted (contents : WebContents) (url : string) :
  will_navigate_listeners contents = [will_navigate URL_origin] ->
  parses URL_origin url = true ->
  permitted URL_origin (currentURL contents) = true ->
  permitted URL_origin (currentURL (navigate contents url)) = true.
Proof.
  intros Hl Hp Hc. unfold navigate.
  rewrite (guarded_prevented _ _ Hl Hp).
  by destruct (permitted URL_origin url) eqn:Hu.
Qed.

Lemma guarded_navigate_all_permitted (urls : list string) (contents : WebContents) :
  will_navigate_listeners contents = [will_navigate URL_origin] ->
  Forall (fun u => parses URL_origin u = true) urls ->
  permitted URL_origin (currentURL contents) = true ->
  permitted URL_origin (currentURL (navigate_all contents urls)) = true.
Proof.
  unfold navigate_all. revert contents.
  induction urls as [|u rest IH]; intros contents Hl Hp Hc.
  - done.
  - apply Forall_cons in Hp as [Hu Hrest]. simpl.
    apply IH; [by rewrite navigate_listeners | done |].
    by apply guarded_navigate_permitted.
Qed.





End Guard.


(** The guard at work: from the development server's page, after a visit
    to the settings page, a link to another site is prevented. *)
Example guard_prevents_after_navigation :
  let contents :=
    Main.navigate_all
      (Main.create_web_contents Main.listed_origin "http://localhost:3000")
      ["http://localhost:3000/settings"] in
  Main.currentURL contents = "http://localhost:3000/settings" /\
  Main.navigation_prevented contents "https://evil.example/login" = true /\
  Main.currentURL (Main.navigate contents "https://evil.example/login")
  = "http://localhost:3000/settings".
Proof. by vm_compute. Qed.

Example guard_prevents_other_site :
  Main.navigation_prevented
    (Main.create_web_contents Main.listed_origin "http://localhost:3000")
    "https://evil.example/login" = true.
Proof. reflexivity. Qed.

Example guard_allows_app_page :
  Main.navigation_prevented
    (Main.create_web_contents Main.listed_origin "http://localhost:3000")
    "http://localhost:3000/settings" = false.
Proof. reflexivity. Qed.

Example guard_allows_file_url :
  Main.navigation_prevented
    (Main.create_web_contents Main.listed_origin "file:///app/build/index.html")
    "file:///app/build/other.html" = false.
Proof. reflexivity. Qed.

(** ** The preload bridge *)
Section Bridge.
Import Preload.
Context {Callback : Type}.
Implicit Types (e : gmap string (list Callback)) (f : Callback)
  (callback : @argument Callback).

Lemma listeners_insert e channel (l : list Callback) :
  listeners channel (<[channel := l]> e) = l.
Proof. unfold listeners. by rewrite lookup_insert_eq. Qed.

Lemma listeners_insert_other e channel channel' (l : list Callback) :
  channel <> channel' ->
  listeners channel' (<[channel := l]> e) = listeners channel' e.
Proof. intros Hne. unfold listeners. by rewrite lookup_insert_ne. Qed.

Lemma listeners_removeAllListeners e channel :
  listeners channel (removeAllListeners channel e) = [].
Proof. unfold removeAllListeners, listeners. by rewrite lookup_delete_eq. Qed.

Lemma listeners_removeAllListeners_other e channel channel' :
  channel <> channel' ->
  listeners channel' (removeAllListeners channel e) = listeners channel' e.
Proof.
  intros Hne. unfold removeAllListeners, listeners. by rewrite lookup_delete_ne.
Qed.

Lemma onScreenCapture_listeners e callback :
  listeners "screen-capture" (fst (onScreenCapture callback e))
  = Bridge.offered callback.
Proof.
  unfold onScreenCapture. destruct callback as [f|v]; simpl.
  - by rewrite listeners_insert, listeners_removeAllListeners.
  - apply listeners_removeAllListeners.
Qed.

Lemma onPatternDetected_listeners e callback :
  listeners "pattern-detected" (fst (onPatternDetected callback e))
  = Bridge.offered callback.
Proof.
  unfold onPatternDetected. destruct callback as [f|v]; simpl.
  - by rewrite listeners_insert, listeners_removeAllListeners.
  - apply listeners_removeAllListeners.
Qed.

Lemma onScreenCapture_other e channel callback :
  channel <> "screen-capture" ->
  listeners channel (fst (onScreenCapture callback e)) = listeners channel e.
Proof.
  intros Hne. unfold onScreenCapture. destruct callback as [f|v]; simpl.
  - rewrite listeners_insert_other by done.
    by rewrite listeners_removeAllListeners_other.
  - by rewrite listeners_removeAllListeners_other.
Qed.

Lemma onPatternDetected_other e channel callback :
  channel <> "pattern-detected" ->
  listeners channel (fst (onPatternDetected callback e)) = listeners channel e.
Proof.
  intros Hne. unfold onPatternDetected. destruct callback as [f|v]; simpl.
  - rewrite listeners_insert_other by done.
    by rewrite listeners_removeAllListeners_other.
  - by rewrite listeners_removeAllListeners_other.
Qed.

Lemma onScreenCapture_outcome e callback :
  snd (onScreenCapture callback e)
  = match callback with Function _ => Returned | NotFunction _ => Threw end.
Proof. by destruct callback. Qed.

Lemma onPatternDetected_outcome e callback :
  snd (onPatternDetected callback e)
  = match callback with Function _ => Returned | NotFunction _ => Threw end.
Proof. by destruct callback. Qed.

Lemma offered_length callback : (length (Bridge.offered callback) <= 1)%nat.
Proof. destruct callback; simpl; lia. Qed.

(** Through the bridge, a call never makes one of the two channels hold
    more listeners than it held, beyond one. *)
Lemma perform_bounded e (c : call) channel :
  channel = "screen-capture" \/ channel = "pattern-detected" ->
  (listenerCount channel e <= 1)%nat ->
  (listenerCount channel (perform e c) <= 1)%nat.
Proof.
  intros Hch Hle. unfold listenerCount, perform in *.
  destruct c as [cb|cb|ch']; simpl.
  - destruct (decide (channel = "screen-capture")) as [->|Hne].
    + rewrite onScreenCapture_listeners. apply offered_length.
    + by rewrite onScreenCapture_other.
  - destruct (decide (channel = "pattern-detected")) as [->|Hne].
    + rewrite onPatternDetected_listeners. apply offered_length.
    + by rewrite onPatternDetected_other.
  - destruct (decide (ch' = channel)) as [->|Hne].
    + rewrite listeners_removeAllListeners. simpl. lia.
    + by rewrite listeners_removeAllListeners_other.
Qed.

(** X3.  Starting with no listeners, no sequence of calls through the
    bridge leaves more than one listener on either channel. *)
Lemma bridge_never_accumulates (calls : list call) channel :
  channel = "screen-capture" \/ channel = "pattern-detected" ->
  (listenerCount channel (perform_all (∅ : gmap string (list Callback)) calls) <= 1)%nat.
Proof.
  intros Hch. unfold perform_all.
  assert (H0 : (listenerCount channel (∅ : gmap string (list Callback)) <= 1)%nat).
  { unfold listenerCount, listeners. rewrite lookup_empty. simpl. lia. }
  revert H0. generalize (∅ : gmap string (list Callback)).
  induction calls as [|c rest IH]; intros e He; simpl.
  - done.
  - apply IH. by apply perform_bounded.
Qed.

(** C9 (as amended).  Whatever listeners the channels held, left by
    whatever calls came before: [onScreenCapture] called with a function
    returns and leaves exactly that function on 'screen-capture'; called
    with anything else it throws and leaves the channel with no listener,
    the earlier ones having been removed before [on] rejected the argument.
    [onPatternDetected] does the same on 'pattern-detected'.  Either way the
    channel holds at most one listener afterwards: registering again
    replaces, it never adds. *)
Theorem registration_replaces e (calls : list call) callback :
  let e' := perform_all e calls in
  let capture := onScreenCapture callback e' in
  let pattern := onPatternDetected callback e' in
  match callback with
  | Function f =>
      snd capture = Returned /\
      listeners "screen-capture" (fst capture) = [f] /\
      listenerCount "screen-capture" (fst capture) = 1%nat /\
      snd pattern = Returned /\
      listeners "pattern-detected" (fst pattern) = [f] /\
      listenerCount "pattern-detected" (fst pattern) = 1%nat
  | NotFunction _ =>
      snd capture = Threw /\
      listeners "screen-capture" (fst capture) = [] /\
      listenerCount "screen-capture" (fst capture) = 0%nat /\
      snd pattern = Threw /\
      listeners "pattern-detected" (fst pattern) = [] /\
      listenerCount "pattern-detected" (fst pattern) = 0%nat
  end.
Proof.
  intros e' capture pattern. subst capture pattern. unfold listenerCount.
  rewrite onScreenCapture_listeners, onPatternDetected_listeners.
  rewrite onScreenCapture_outcome, onPatternDetected_outcome.
  by destruct callback.
Qed.

End Bridge.

(** C9, the case the claim leaves out.  With one listener on
    'screen-capture', [onScreenCapture(42)] throws and leaves none. *)
Lemma registering_a_non_function_leaves_no_listener :
  let e := fst (Preload.onScreenCapture (Preload.Function 1%nat)
                  (∅ : gmap string (list nat))) in
  let after := Preload.onScreenCapture (Preload.NotFunction (JS.VNum 42)) e in
  Preload.listenerCount "screen-capture" e = 1%nat /\
  snd after = Preload.Threw /\
  Preload.listenerCount "screen-capture" (fst after) = 0%nat.
Proof. vm_compute. by repeat split. Qed.

Example three_registrations_one_listener :
  Preload.listeners "screen-capture"
    (Preload.perform_all (∅ : gmap string (list nat))
       [Preload.OnScreenCapture (Preload.Function 1%nat);
        Preload.OnScreenCapture (Preload.Function 2%nat);
        Preload.OnPatternDetected (Preload.Function 7%nat);
        Preload.OnScreenCapture (Preload.Function 3%nat)])
  = [3%nat].
Proof. vm_compute. reflexivity. Qed.

(** ** The configured fusion weights *)
Section Configuration.
Import Env.
Implicit Types (env : gmap string string).





Example custom_weights :
  weights (load custom_env) = Some (mkWeights (6 # 10) (4 # 10)).
Proof. by vm_compute. Qed.

Example quoted_and_spaced_weights :
  weights (load ["TECHNICAL_WEIGHT = '0.55'"; "  SENTIMENT_WEIGHT=0.45  "])
  = Some (mkWeights (55 # 100) (45 # 100)).
Proof. by vm_compute. Qed.

Example empty_file_gives_defaults :
  weights (load ["# nothing set"; ""]) = Some default_weights.
Proof. by vm_compute. Qed.

Example template_sets_capture_interval :
  load env_example !! "CAPTURE_INTERVAL" = Some "5".
Proof. by vm_compute. Qed.

End Configuration.

(** ** The capture loop *)
Section CaptureLoopFacts.
Import CaptureLoop.
Context {Frame : Type}.
Implicit Types (o : @outcome Frame) (cause : capture_error).

Lemma run_app (st : status) (xs ys : list (@input Frame)) :
  run st (xs ++ ys)
  = let (st1, out1) := run st xs in
    let (st2, out2) := run st1 ys in
    (st2, (out1 ++ out2)%list).
Proof.
  revert st. induction xs as [|i xs IH]; intros st; simpl.
  - by destruct (run st ys).
  - destruct (step st i) as [st1 out1].
    rewrite IH. destruct (run st1 xs) as [st2 out2].
    destruct (run st2 ys) as [st3 out3]. by rewrite app_assoc.
Qed.

(** A paused loop stays paused, and emits nothing, however many ticks
    pass. *)
Lemma paused_ignores_ticks (outs : list (@outcome Frame)) :
  run Paused (map Tick outs) = (Paused, []).
Proof.
  induction outs as [|o outs IH]; simpl.
  - reflexivity.
  - by rewrite IH.
Qed.

(** A running loop never counts up to the limit: it pauses instead. *)
Lemma step_count_below_limit (st : status) (i : @input Frame) (n : nat) :
  match st with Running m => (m < failure_limit)%nat | Paused => True end ->
  fst (step st i) = Running n -> (n < failure_limit)%nat.
Proof.
  unfold failure_limit.
  destruct st as [m|], i as [[frame|cause]|]; simpl; intros Hm Hst.
  - injection Hst as <-. lia.
  - destruct m as [|[|m]]; simpl in Hst; [injection Hst as <-; lia..|done].
  - injection Hst as <-. done.
  - done.
  - done.
  - injection Hst as <-. lia.
Qed.

(** Fewer than three failures in a row, then a successful capture: the
    loop is running with a clear count, the Frame was emitted, and every
    failure was reported. *)
Lemma short_failure_run_recovers (k : nat) cause (frame : Frame) :
  (k < failure_limit)%nat ->
  run (Running 0) (map Tick (replicate k (CaptureUnavailable cause) ++ [Captured frame]))
  = (Running 0, (replicate k (FailureReported cause) ++ [FrameEvent frame])%list).
Proof.
  unfold failure_limit. intros Hk.
  destruct k as [|[|[|k]]]; [reflexivity..|lia].
Qed.

Lemma run_app_status (st : status) (xs ys : list (@input Frame)) :
  fst (run st (xs ++ ys)) = fst (run (fst (run st xs)) ys).
Proof.
  rewrite run_app. destruct (run st xs) as [st1 out1]. simpl.
  by destruct (run st1 ys).
Qed.

Lemma paused_stays_paused (outs : list (@outcome Frame)) :
  fst (run Paused (map Tick outs)) = Paused.
Proof. by rewrite paused_ignores_ticks. Qed.

(** Three failures in a row anywhere in the ticks pause the loop, and it
    is still paused when the ticks end. *)
Lemma three_failures_anywhere_pause (n : nat) (c1 c2 c3 : capture_error)
    (before after : list (@outcome Frame)) :
  fst (run (Running n)
         (map Tick (before ++ [CaptureUnavailable c1; CaptureUnavailable c2;
                               CaptureUnavailable c3] ++ after)))
  = Paused.
Proof.
  rewrite !map_app, !run_app_status.
  destruct (fst (run (Running n) (map Tick before))) as [m|].
  - replace (fst (run (Running m)
               (map Tick [CaptureUnavailable c1; CaptureUnavailable c2;
                          CaptureUnavailable c3]))) with (@Paused).
    + apply paused_stays_paused.
    + destruct m as [|[|[|m]]]; reflexivity.
  - simpl. apply paused_stays_paused.
Qed.

Lemma pause_needs_failures (outs : list (@outcome Frame)) (n : nat) :
  (n < failure_limit)%nat ->
  fst (run (Running n) (map Tick outs)) = Paused ->
  (exists before c1 c2 c3 after,
     outs = (before ++ [CaptureUnavailable c1; CaptureUnavailable c2;
                        CaptureUnavailable c3] ++ after)%list) \/
  (exists causes after,
     outs = (map CaptureUnavailable causes ++ after)%list /\
     length causes = (failure_limit - n)%nat).
Proof.
  unfold failure_limit. revert n.
  induction outs as [|o outs IH]; intros n Hn Hp.
  - done.
  - change (map Tick (o :: outs)) with ([Tick o] ++ map Tick outs)%list in Hp.
    rewrite run_app_status in Hp.
    destruct o as [frame|cause].
    + left. simpl in Hp.
      destruct (IH 0%nat ltac:(lia) Hp)
        as [(before & c1 & c2 & c3 & after & ->)
           |(causes & after & -> & Hlen)].
      * by exists (Captured frame :: before), c1, c2, c3, after.
      * destruct causes as [|c1 [|c2 [|c3 [|? ?]]]]; simpl in Hlen; try lia.
        by exists [Captured frame], c1, c2, c3, after.
    + destruct (decide (n = 2)) as [->|Hn2].
      * right. by exists [cause], outs.
      * assert (Hst : fst (@run Frame (Running n) [Tick (CaptureUnavailable cause)])
                      = Running (S n)).
        { destruct n as [|[|n]]; [reflexivity..|lia]. }
        rewrite Hst in Hp.
        destruct (IH (S n) ltac:(lia) Hp)
          as [(before & c1 & c2 & c3 & after & ->)
             |(causes & after & -> & Hlen)].
        -- left. by exists (CaptureUnavailable cause :: before), c1, c2, c3, after.
        -- right. exists (cause :: causes), after. split; [done|].
           simpl. lia.
Qed.

(** From a clear count the loop pauses only when three failures came in a
    row. *)
Lemma pause_needs_three_failures (outs : list (@outcome Frame)) :
  fst (run (Running 0) (map Tick outs)) = Paused ->
  exists before c1 c2 c3 after,
    outs = (before ++ [CaptureUnavailable c1; CaptureUnavailable c2;
                       CaptureUnavailable c3] ++ after)%list.
Proof.
  intros Hp.
  destruct (pause_needs_failures outs 0 ltac:(unfold failure_limit; lia) Hp)
    as [Hthree|(causes & after & -> & Hlen)]; [done|].
  unfold failure_limit in Hlen.
  destruct causes as [|c1 [|c2 [|c3 [|? ?]]]]; simpl in Hlen; try lia.
  by exists [], c1, c2, c3, after.
Qed.

(** C4.  Three consecutive capture failures leave the loop paused,
    whatever its count was; the paused loop stays paused and captures
    nothing however many ticks follow, and only a reset sets it running
    again.  A single failure is reported and leaves the loop running, and
    the next tick captures as usual. *)
Theorem three_failures_pause (n : nat) (c1 c2 c3 : capture_error)
    (outs : list (@outcome Frame)) (frame : Frame) :
  fst (@run Frame (Running n)
         [Tick (CaptureUnavailable c1); Tick (CaptureUnavailable c2);
          Tick (CaptureUnavailable c3)]) = Paused /\
  @run Frame (Running 0)
    [Tick (CaptureUnavailable c1); Tick (CaptureUnavailable c2);
     Tick (CaptureUnavailable c3)]
  = (Paused, [FailureReported c1; FailureReported c2; FailureReported c3;
              PersistentCaptureFailure c3]) /\
  run Paused (map Tick outs) = (Paused, []) /\
  step Paused (@Reset Frame) = (Running 0, []) /\
  @step Frame (Running 0) (Tick (CaptureUnavailable c1))
  = (Running 1, [FailureReported c1]) /\
  run (Running 0) [Tick (CaptureUnavailable c1); Tick (Captured frame)]
  = (Running 0, [FailureReported c1; FrameEvent frame]).
Proof.
  split; [|split; [|split; [|split; [|split]]]]; try reflexivity.
  - destruct n as [|[|[|n]]]; reflexivity.
  - apply paused_ignores_ticks.
Qed.

End CaptureLoopFacts.

(** ** The dispatcher *)
Section DispatcherFacts.
Import Dispatcher.
Context {Payload : Type}.
Implicit Types (d : @state Payload) (e : @event Payload) (k : key)
  (cycles : list (key * Z)).

Lemma take_None k cycles :
  take k cycles = None <-> k ∉ cycles.*1.
Proof.
  induction cycles as [|[k' t] rest IH]; simpl.
  - split; [intros _; apply not_elem_of_nil | done].
  - rewrite not_elem_of_cons. case_bool_decide as Hk.
    + split; [done | intros [? _]; done].
    + destruct (take k rest) as [[t' rest']|].
      * split; [done|]. intros [_ Hn]. by apply IH in Hn.
      * split; [|done]. intros _. split; [done|]. by apply IH.
Qed.


Lemma busy_false k cycles :
  busy k cycles = false <-> k ∉ cycles.*1.
Proof. unfold busy. by rewrite bool_decide_eq_false. Qed.









(** A completion for a region with no cycle in flight publishes nothing:
    a dropped tick leaves no cycle behind to complete. *)
Lemma completion_without_cycle d k (result : Payload) :
  busy k (in_flight d) = false ->
  step d (CycleCompleted k result) = d.
Proof.
  intros Hb. apply busy_false in Hb. apply take_None in Hb.
  simpl. by rewrite Hb.
Qed.


End DispatcherFacts.


Example two_ticks_one_result :
  Dispatcher.published
    (Dispatcher.run (Dispatcher.init (Payload := nat))
       [Dispatcher.CaptureTick Dispatcher.sample_key 5000;
        Dispatcher.CaptureTick Dispatcher.sample_key 5005;
        Dispatcher.CycleCompleted Dispatcher.sample_key 42%nat;
        Dispatcher.CycleCompleted Dispatcher.sample_key 43%nat])
  = [Dispatcher.mkAnalysisResult "BTCUSD" 1%nat 5000 42%nat].
Proof. reflexivity. Qed.

(** ** More on the preload bridge *)
Section BridgeCalls.
Import Preload.
Context {Callback : Type}.
Implicit Types (e : gmap string (list Callback)) (c : @call Callback).

Lemma perform_on_target e c :
  listeners (Bridge.target c) (perform e c) = Bridge.registered c.
Proof.
  unfold perform. destruct c as [cb|cb|channel]; simpl.
  - apply onScreenCapture_listeners.
  - apply onPatternDetected_listeners.
  - apply listeners_removeAllListeners.
Qed.

Lemma perform_off_target e c channel :
  Bridge.target c <> channel ->
  listeners channel (perform e c) = listeners channel e.
Proof.
  unfold perform. destruct c as [cb|cb|channel']; simpl; intros Hne.
  - by apply onScreenCapture_other.
  - by apply onPatternDetected_other.
  - by apply listeners_removeAllListeners_other.
Qed.

(** X4.  Calls through the bridge that act on other channels leave the
    listeners of a channel exactly as they were, however many they are. *)
Theorem other_channels_untouched e (calls : list (@call Callback)) channel :
  Forall (fun c => Bridge.target c <> channel) calls ->
  listeners channel (perform_all e calls) = listeners channel e.
Proof.
  unfold perform_all. revert e.
  induction calls as [|c calls IH]; intros e Hcalls; simpl.
  - reflexivity.
  - apply Forall_cons in Hcalls as [Hc Hcalls].
    rewrite IH by done. by apply perform_off_target.
Qed.

(** X5.  After any sequence of calls through the bridge, the listeners of a
    channel are the ones the last call on that channel left: the callback
    of the last registration alone when it is a function, and none after a
    removal or after a registration whose argument is not a function. *)
Theorem last_call_decides e (before after : list (@call Callback)) c :
  Forall (fun c' => Bridge.target c' <> Bridge.target c) after ->
  listeners (Bridge.target c) (perform_all e (before ++ c :: after))
  = Bridge.registered c.
Proof.
  intros Hafter. unfold perform_all.
  rewrite fold_left_app. simpl.
  fold (perform_all (perform (fold_left perform before e) c) after).
  rewrite other_channels_untouched by done.
  apply perform_on_target.
Qed.

End BridgeCalls.

Lemma other_channels_untouched_witness :
  Preload.listeners "pattern-detected"
    (Preload.perform_all
       (Preload.perform (∅ : gmap string (list nat))
          (Preload.OnPatternDetected (Preload.Function 7%nat)))
       [Preload.OnScreenCapture (Preload.Function 1%nat);
        Preload.RemoveAllListeners "screen-capture";
        Preload.OnScreenCapture (Preload.NotFunction JS.VUndefined)])
  = Preload.listeners "pattern-detected"
      (Preload.perform (∅ : gmap string (list nat))
         (Preload.OnPatternDetected (Preload.Function 7%nat))).
Proof.
  apply (other_channels_untouched
           (Preload.perform (∅ : gmap string (list nat))
              (Preload.OnPatternDetected (Preload.Function 7%nat)))
           [Preload.OnScreenCapture (Preload.Function 1%nat);
            Preload.RemoveAllListeners "screen-capture";
            Preload.OnScreenCapture (Preload.NotFunction JS.VUndefined)]
           "pattern-detected").
  repeat constructor; simpl; discriminate.
Defined.

Lemma last_call_decides_witness :
  Preload.listeners "screen-capture"
    (Preload.perform_all (∅ : gmap string (list nat))
       ([Preload.OnScreenCapture (Preload.Function 1%nat);
         Preload.OnScreenCapture (Preload.NotFunction JS.VUndefined)]
        ++ Preload.OnScreenCapture (Preload.Function 3%nat)
        :: [Preload.OnPatternDetected (Preload.Function 7%nat);
            Preload.RemoveAllListeners "pattern-detected"])%list)
  = [3%nat].
Proof.
  apply (last_call_decides (∅ : gmap string (list nat))
           [Preload.OnScreenCapture (Preload.Function 1%nat);
            Preload.OnScreenCapture (Preload.NotFunction JS.VUndefined)]
           [Preload.OnPatternDetected (Preload.Function 7%nat);
            Preload.RemoveAllListeners "pattern-detected"]
           (Preload.OnScreenCapture (Preload.Function 3%nat))).
  repeat constructor; simpl; discriminate.
Defined.

Lemma bridge_never_accumulates_witness :
  (Preload.listenerCount "screen-capture"
     (Preload.perform_all (∅ : gmap string (list nat))
        [Preload.OnScreenCapture (Preload.Function 1%nat);
         Preload.OnScreenCapture (Preload.Function 2%nat);
         Preload.OnPatternDetected (Preload.Function 7%nat)])
   <= 1)%nat.
Proof.
  apply (bridge_never_accumulates
           [Preload.OnScreenCapture (Preload.Function 1%nat);
            Preload.OnScreenCapture (Preload.Function 2%nat);
            Preload.OnPatternDetected (Preload.Function 7%nat)]
           "screen-capture").
  left. reflexivity.
Defined.

(** ** The IPC channels *)
Section IpcRouting.
Import JS Main Ipc.
Context {S : Type} `{Screen S}.

(** X2.  Of the seven methods the bridge offers over [invoke], three reach a
    handler of [main.js]: [getScreenInfo] resolves with the records of
    [get-screen-info], [captureScreenRegion] with the result for its
    region at the current time, [setCaptureRegion] with [success: true]
    after one more console line.  [minimize], [maximize], [close] and
    [getAppVersion] have no handler: the promise rejects and the main
    process is as before. *)
Theorem invoke_routing (m : method) (st : MainState) :
  match m with
  | getScreenInfo =>
      invoke m st
      = (Resolved (Array (fst (get_screen_info (screen st)))),
         mkMainState (snd (get_screen_info (screen st))) (clock st) (console st))
  | captureScreenRegion region =>
      invoke m st
      = (Resolved (Single (VObj [("success", VBool true);
                                 ("region", region);
                                 ("timestamp", VNum (inject_Z (clock st)))])),
         st)
  | setCaptureRegion region =>
      invoke m st
      = (Resolved (Single (VObj [("success", VBool true)])),
         mkMainState (screen st) (clock st)
           (console st ++ [[VStr "Setting capture region:"; region]])%list)
  | minimize | maximize | close | getAppVersion =>
      exists message, invoke m st = (Rejected message, st)
  end.
Proof.
  destruct m; unfold invoke; simpl.
  - unfold handle_get_screen_info.
    by destruct (get_screen_info (screen st)).
  - unfold handle_capture_screen_region. reflexivity.
  - reflexivity.
  - eexists; reflexivity.
  - eexists; reflexivity.
  - eexists; reflexivity.
  - eexists; reflexivity.
Qed.

End IpcRouting.

(** ** The guard and a URL that does not parse *)
Section GuardFailure.
Import JS Main.
Variable URL_origin : string -> option string.

(** X6.  When [new URL] throws on the navigation URL, the listener ends before
    it reaches [preventDefault]: the navigation is not prevented and the
    web contents goes to that URL. *)
Theorem guard_fails_open (start : string) (urls : list string) (url : string) :
  URL_origin url = None ->
  let contents := navigate_all (create_web_contents URL_origin start) urls in
  will_navigate URL_origin (mkEvent false) url = None /\
  navigation_prevented contents url = false /\
  currentURL (navigate contents url) = url.
Proof.
  intros Ho contents.
  assert (Hl : will_navigate_listeners contents = [will_navigate URL_origin]).
  { unfold contents. by rewrite navigate_all_listeners. }
  assert (Hw : will_navigate URL_origin (mkEvent false) url = None).
  { unfold will_navigate. by rewrite Ho. }
  assert (Hp : navigation_prevented contents url = false).
  { unfold navigation_prevented. rewrite Hl. simpl. by rewrite Hw. }
  split; [done|]. split; [done|].
  unfold navigate. by rewrite Hp.
Qed.

End GuardFailure.

Lemma guard_fails_open_witness :
  let contents :=
    Main.navigate_all
      (Main.create_web_contents Main.listed_origin "http://localhost:3000") [] in
  Main.will_navigate Main.listed_origin (Main.mkEvent false) "not a url" = None /\
  Main.navigation_prevented contents "not a url" = false /\
  Main.currentURL (Main.navigate contents "not a url") = "not a url".
Proof.
  apply (guard_fails_open Main.listed_origin "http://localhost:3000" []
           "not a url").
  reflexivity.
Defined.

(** ** The window and application lifecycle *)
Section LifecycleFacts.
Import Lifecycle.
Variable path_join : string -> string -> string.
Implicit Types (a : App) (e : event).

Lemma step_environment a e :
  platform (step path_join a e) = platform a /\
  isDev (step path_join a e) = isDev a /\
  dirname (step path_join a e) = dirname a.
Proof.
  unfold step. destruct (has_quit a); [done|].
  destruct e as [| |id|id]; simpl.
  - destruct (ready a); [done|]. by unfold attempt, createWindow.
  - unfold on_activate. destruct (length (windows a) =? 0)%nat; [|done].
    unfold attempt, createWindow. by destruct (ready a).
  - destruct (waiting_to_show id a); [|done].
    unfold attempt, on_ready_to_show. simpl. by destruct (mainWindow a).
  - destruct (has_window id a); [|done]. simpl.
    destruct (length _ =? 0)%nat; [|done].
    unfold on_window_all_closed. simpl. by destruct (negb _).
Qed.

Lemma run_environment (events : list event) a :
  platform (run path_join a events) = platform a /\
  isDev (run path_join a events) = isDev a /\
  dirname (run path_join a events) = dirname a.
Proof.
  unfold run. revert a. induction events as [|e events IH]; intros a; simpl.
  - done.
  - destruct (IH (step path_join a e)) as (-> & -> & ->).
    apply step_environment.
Qed.

Lemma step_consistent a e :
  consistent path_join a -> consistent path_join (step path_join a e).
Proof.
  intros Ha. unfold step.
  destruct (has_quit a) eqn:Hquit; [done|].
  destruct e as [| |id|id].
  - (* Ready *)
    destruct (ready a) eqn:Hr; [done|].
    destruct Ha as (Hnr & Hq & Hidle & Hw).
    destruct (Hnr Hr) as [Hws _].
    unfold attempt, createWindow. simpl. rewrite Hws. simpl.
    repeat split; simpl; intros; simpl in *; first [done | congruence].
  - (* Activate *)
    unfold on_activate.
    destruct (windows a) as [|w ws] eqn:Hws; simpl; [|done].
    unfold attempt, createWindow.
    destruct (ready a) eqn:Hr; [|done].
    simpl. rewrite Hws. simpl.
    repeat split; simpl; intros; simpl in *; first [done | congruence].
  - (* ReadyToShow *)
    destruct (waiting_to_show id a) eqn:Hwait; [|done].
    destruct Ha as (Hnr & Hq & Hidle & Hw).
    unfold waiting_to_show in Hwait.
    destruct (windows a) as [|w [|w' ws]] eqn:Hws; [done| |done].
    simpl in Hwait. rewrite orb_false_r in Hwait.
    apply andb_true_iff in Hwait as [Hid Hwaiting].
    destruct Hw as (Hmain & Hopt & Hurl & Hdev & Hvis).
    unfold attempt, on_ready_to_show, disarm. simpl.
    rewrite Hmain, Hws. simpl. rewrite Hid. simpl. rewrite Nat.eqb_refl.
    split; [|split; [|split]]; simpl.
    + intros Hr. destruct (Hnr Hr) as [? _]. congruence.
    + intros Hq'. congruence.
    + done.
    + by repeat split.
  - (* CloseWindow *)
    destruct (has_window id a) eqn:Hhas; [|done].
    destruct Ha as (Hnr & Hq & Hidle & Hw).
    unfold has_window in Hhas.
    destruct (windows a) as [|w [|w' ws]] eqn:Hws; [done| |done].
    simpl in Hhas. rewrite orb_false_r in Hhas.
    apply Nat.eqb_eq in Hhas.
    assert (Hr : ready a = true).
    { destruct (ready a) eqn:Hr; [done|].
      destruct Hnr as [? _]; [done | congruence]. }
    unfold remove_window, on_closed, on_window_all_closed. simpl.
    rewrite Hws. simpl.
    assert (Hf : filter (fun w0 => window_id w0 <> id) [w] = []).
    { rewrite filter_cons_False by (intros Hne; by apply Hne).
      apply filter_nil. }
    rewrite Hf. simpl.
    destruct (String.eqb (platform a) "darwin") eqn:Hp; simpl.
    + apply String.eqb_eq in Hp.
      repeat split; simpl; intros; simpl in *; first [done | congruence].
    + apply String.eqb_neq in Hp.
      repeat split; simpl; intros; simpl in *; first [done | congruence].
Qed.

Lemma launch_consistent (os : string) (dev : bool) (dir : string) :
  consistent path_join (launch os dev dir).
Proof. by repeat split. Qed.

Lemma run_consistent (events : list event) a :
  consistent path_join a -> consistent path_join (run path_join a events).
Proof.
  unfold run. revert a. induction events as [|e events IH]; intros a Ha; simpl.
  - done.
  - apply IH. by apply step_consistent.
Qed.

(** X8.  Through any sequence of the events [main.js] listens to (ready,
    activate, ready-to-show, a window closed), the application holds at
    most one window of its making, and the variable [mainWindow] is null
    exactly when there is none and refers to the open window otherwise. *)
Theorem single_window (os : string) (dev : bool) (dir : string)
    (events : list event) :
  let a := run path_join (launch os dev dir) events in
  (length (windows a) <= 1)%nat /\
  (mainWindow a = None <-> windows a = []) /\
  (forall w, w ∈ windows a -> mainWindow a = Some (window_id w)).
Proof.
  intros a.
  destruct (run_consistent events _ (launch_consistent os dev dir))
    as (_ & _ & _ & Hw).
  fold a in Hw.
  destruct (windows a) as [|w [|w' ws]]; [| |done].
  - split; [simpl; lia|]. split; [done|].
    intros w Hin. by apply not_elem_of_nil in Hin.
  - destruct Hw as [Hmain _]. split; [simpl; lia|]. split.
    + rewrite Hmain. split; discriminate.
    + intros w0 Hin. apply list_elem_of_singleton in Hin. by subst.
Qed.

(** X9.  The code has called [app.quit()] exactly when the application
    runs on a platform other than darwin, is ready, and has no window
    left; on darwin it never calls it. *)
Theorem quit_policy (os : string) (dev : bool) (dir : string)
    (events : list event) :
  let a := run path_join (launch os dev dir) events in
  has_quit a = true <-> os <> "darwin" /\ ready a = true /\ windows a = [].
Proof.
  intros a.
  destruct (run_consistent events _ (launch_consistent os dev dir))
    as (Hnr & Hq & Hidle & _).
  destruct (run_environment events (launch os dev dir)) as (Hos & _ & _).
  fold a in Hnr, Hq, Hidle, Hos. simpl in Hos. rewrite Hos in *.
  split.
  - intros Hquit. destruct (Hq Hquit) as [Hp Hws].
    split; [done|]. split; [|done].
    destruct (ready a) eqn:Hr; [done|].
    destruct (Hnr eq_refl) as [_ ?]. congruence.
  - intros (Hp & Hr & Hws). by apply Hidle.
Qed.

(** X10.  Every window the application has was created with the options of
    [createWindow] (context isolation on, node integration off), was
    told to load the start URL, has its DevTools open exactly in
    development, and is visible only once its ready-to-show listener has
    run. *)
Theorem windows_as_created (os : string) (dev : bool) (dir : string)
    (events : list event) (w : BrowserWindow) :
  w ∈ windows (run path_join (launch os dev dir) events) ->
  options w = window_options path_join dir /\
  contextIsolation (webPreferences (options w)) = true /\
  nodeIntegration (webPreferences (options w)) = false /\
  loadedURL w = startUrl path_join dev dir /\
  devTools w = dev /\
  (visible w = true -> show_when_ready w = false).
Proof.
  intros Hin.
  destruct (run_consistent events _ (launch_consistent os dev dir))
    as (_ & _ & _ & Hw).
  destruct (run_environment events (launch os dev dir)) as (_ & Hdev & Hdir).
  simpl in Hdev, Hdir.
  destruct (windows (run path_join (launch os dev dir) events))
    as [|w0 [|w' ws]]; [by apply not_elem_of_nil in Hin| |done].
  apply list_elem_of_singleton in Hin. subst w0.
  destruct Hw as (_ & Hopt & Hurl & Hdt & Hvis).
  rewrite Hdev, Hdir in *.
  rewrite Hopt. by repeat split.
Qed.

(** X11.  When a window that waits to be shown becomes ready to show, that
    window is the one made visible: the listener shows whatever
    [mainWindow] refers to, and that is this window. *)
Theorem ready_to_show_shows_window (os : string) (dev : bool) (dir : string)
    (events : list event) (id : nat) :
  let a := run path_join (launch os dev dir) events in
  waiting_to_show id a = true ->
  exists w,
    windows (step path_join a (ReadyToShow id)) = [w] /\
    window_id w = id /\
    visible w = true /\
    show_when_ready w = false.
Proof.
  intros a Hwait.
  destruct (run_consistent events _ (launch_consistent os dev dir))
    as (_ & Hq & _ & Hw).
  fold a in Hq, Hw.
  unfold waiting_to_show in Hwait.
  destruct (windows a) as [|w [|w' ws]] eqn:Hws; [done| |done].
  simpl in Hwait. rewrite orb_false_r in Hwait.
  apply andb_true_iff in Hwait as [Hid Hwaiting].
  destruct Hw as [Hmain _].
  assert (Hquit : has_quit a = false).
  { destruct (has_quit a) eqn:Hquit; [|done].
    destruct (Hq eq_refl) as [_ ?]. congruence. }
  unfold step. rewrite Hquit. unfold waiting_to_show. rewrite Hws. simpl.
  rewrite Hid, Hwaiting. simpl.
  unfold attempt, on_ready_to_show, disarm. simpl.
  rewrite Hmain, Hws. simpl. rewrite Hid. simpl. rewrite Nat.eqb_refl.
  eexists. split; [reflexivity|]. simpl.
  split; [by apply Nat.eqb_eq|]. done.
Qed.

(** X12.  On darwin, once the window is closed the application stays alive
    without one, and the next activation opens a new window on the start
    URL. *)
Theorem activate_reopens (dev : bool) (dir : string) (events : list event) :
  let a := run path_join (launch "darwin" dev dir) events in
  ready a = true ->
  windows a = [] ->
  has_quit a = false /\
  exists w,
    windows (step path_join a Activate) = [w] /\
    mainWindow (step path_join a Activate) = Some (window_id w) /\
    loadedURL w = startUrl path_join dev dir /\
    visible w = false.
Proof.
  intros a Hr Hws.
  destruct (run_consistent events _ (launch_consistent "darwin" dev dir))
    as (_ & Hq & _ & _).
  destruct (run_environment events (launch "darwin" dev dir))
    as (Hos & Hdev & Hdir).
  fold a in Hq, Hos, Hdev, Hdir. simpl in Hos, Hdev, Hdir.
  assert (Hquit : has_quit a = false).
  { destruct (has_quit a) eqn:Hquit; [|done].
    destruct (Hq eq_refl) as [Hp _]. by rewrite Hos in Hp. }
  split; [done|].
  unfold step. rewrite Hquit. unfold on_activate. rewrite Hws. simpl.
  unfold attempt, createWindow. rewrite Hr. simpl. rewrite Hws, Hdev, Hdir.
  eexists. by repeat split.
Qed.

End LifecycleFacts.

Lemma windows_as_created_witness :
  let w :=
    Lifecycle.mkBrowserWindow 0
      (Lifecycle.window_options Lifecycle.posix_join "/opt/app/src/electron")
      (Lifecycle.startUrl Lifecycle.posix_join false "/opt/app/src/electron")
      true false false in
  Lifecycle.options w
  = Lifecycle.window_options Lifecycle.posix_join "/opt/app/src/electron" /\
  Lifecycle.contextIsolation (Lifecycle.webPreferences (Lifecycle.options w))
  = true /\
  Lifecycle.nodeIntegration (Lifecycle.webPreferences (Lifecycle.options w))
  = false /\
  Lifecycle.loadedURL w
  = Lifecycle.startUrl Lifecycle.posix_join false "/opt/app/src/electron" /\
  Lifecycle.devTools w = false /\
  (Lifecycle.visible w = true -> Lifecycle.show_when_ready w = false).
Proof.
  apply (windows_as_created Lifecycle.posix_join "linux" false
           "/opt/app/src/electron"
           [Lifecycle.Ready; Lifecycle.ReadyToShow 0]).
  vm_compute. left.
Defined.

Lemma ready_to_show_shows_window_witness :
  exists w,
    Lifecycle.windows
      (Lifecycle.step Lifecycle.posix_join
         (Lifecycle.run Lifecycle.posix_join
            (Lifecycle.launch "linux" true "/opt/app/src/electron")
            [Lifecycle.Ready])
         (Lifecycle.ReadyToShow 0)) = [w] /\
    Lifecycle.window_id w = 0%nat /\
    Lifecycle.visible w = true /\
    Lifecycle.show_when_ready w = false.
Proof.
  apply (ready_to_show_shows_window Lifecycle.posix_join "linux" true
           "/opt/app/src/electron" [Lifecycle.Ready] 0).
  reflexivity.
Defined.

Lemma activate_reopens_witness :
  let a :=
    Lifecycle.run Lifecycle.posix_join
      (Lifecycle.launch "darwin" false "/opt/app/src/electron")
      [Lifecycle.Ready; Lifecycle.CloseWindow 0] in
  Lifecycle.has_quit a = false /\
  exists w,
    Lifecycle.windows (Lifecycle.step Lifecycle.posix_join a Lifecycle.Activate)
    = [w] /\
    Lifecycle.mainWindow
      (Lifecycle.step Lifecycle.posix_join a Lifecycle.Activate)
    = Some (Lifecycle.window_id w) /\
    Lifecycle.loadedURL w
    = Lifecycle.startUrl Lifecycle.posix_join false "/opt/app/src/electron" /\
    Lifecycle.visible w = false.
Proof.
  apply (activate_reopens Lifecycle.posix_join false "/opt/app/src/electron"
           [Lifecycle.Ready; Lifecycle.CloseWindow 0]).
  - reflexivity.
  - reflexivity.
Defined.

(** ** The start URL and the guard *)
Section StartUrl.
Import JS Main Lifecycle.
Variable URL_origin : string -> option string.
Variable path_join : string -> string -> string.

Lemma prefix_append (s t : string) : String.prefix s (s ++ t) = true.
Proof.
  induction s as [|c s IH]; simpl.
  - by destruct t.
  - destruct (Ascii.ascii_dec c c); [exact IH | done].
Qed.

(** X7.  The URL [createWindow] loads is one the navigation guard lets
    through, whatever the install directory: in production it starts with
    file://, in development it is the development server's own address. *)
Theorem start_url_passes_guard (dev : bool) (dir : string) (origin : string)
    (urls : list string) :
  URL_origin (startUrl path_join dev dir) = Some origin ->
  URL_origin "http://localhost:3000" = Some "http://localhost:3000" ->
  let url := startUrl path_join dev dir in
  let contents := navigate_all (create_web_contents URL_origin url) urls in
  permitted URL_origin url = true /\
  navigation_prevented contents url = false.
Proof.
  intros Ho Hlocal url contents.
  assert (Hperm : permitted URL_origin url = true).
  { unfold permitted, url in *. destruct dev; simpl in *.
    - by rewrite Hlocal.
    - rewrite Ho. rewrite prefix_append. apply orb_true_r. }
  split; [done|].
  assert (Hl : will_navigate_listeners contents = [will_navigate URL_origin]).
  { unfold contents. by rewrite navigate_all_listeners. }
  rewrite (guarded_prevented URL_origin contents url Hl).
  - by rewrite Hperm.
  - unfold parses. fold url in Ho. by rewrite Ho.
Qed.

End StartUrl.

Lemma start_url_passes_guard_witness :
  let url := Lifecycle.startUrl Lifecycle.posix_join false "/opt/app/src/electron" in
  let contents :=
    Main.navigate_all (Main.create_web_contents Main.listed_origin url)
      ["https://evil.example/"] in
  Main.permitted Main.listed_origin url = true /\
  Main.navigation_prevented contents url = false.
Proof.
  apply (start_url_passes_guard Main.listed_origin Lifecycle.posix_join false
           "/opt/app/src/electron" "null" ["https://evil.example/"]).
  - reflexivity.
  - reflexivity.
Defined.

(** ** [setup.sh] *)
Section SetupFacts.
Import Setup.
Variable python_venv : gmap string entry -> gmap string entry.
Variable pip_install : gmap string entry -> gmap string entry.
Variable npm_install : gmap string entry -> gmap string entry.
Implicit Types (fs : gmap string entry) (path : string) (out : list string)
  (st : gmap string entry * list string).

Lemma mkdir_p_other path path' fs :
  path <> path' -> mkdir_p path fs !! path' = fs !! path'.
Proof.
  intros Hne. unfold mkdir_p.
  destruct (fs !! path) as [[c|]|]; [done|..]; by rewrite lookup_insert_ne.
Qed.

Lemma mkdir_p_exists path fs :
  mkdir_p path fs !! path
  = match fs !! path with Some (File c) => Some (File c) | _ => Some Dir end.
Proof.
  unfold mkdir_p.
  destruct (fs !! path) as [[c|]|] eqn:Hp; [done|..]; by rewrite lookup_insert_eq.
Qed.

Lemma create_venv_other st path :
  untouched python_venv pip_install npm_install path ->
  (create_venv python_venv st).1 !! path = st.1 !! path.
Proof.
  intros (Hv & _ & _). destruct st as [fs out]. unfold create_venv.
  destruct (negb (is_dir "venv" fs)); simpl; [apply Hv | done].
Qed.

Lemma install_python_other st path :
  untouched python_venv pip_install npm_install path ->
  (install_python pip_install st).1 !! path = st.1 !! path.
Proof. intros (_ & Hp & _). destruct st as [fs out]. simpl. apply Hp. Qed.

Lemma install_node_other st path :
  untouched python_venv pip_install npm_install path ->
  (install_node npm_install st).1 !! path = st.1 !! path.
Proof.
  intros (_ & _ & Hn). destruct st as [fs out]. unfold install_node.
  destruct (is_file "package.json" fs); simpl; [apply Hn | done].
Qed.

Lemma create_directories_other st path :
  path <> "data" -> path <> "models" -> path <> "logs" ->
  (create_directories st).1 !! path = st.1 !! path.
Proof.
  intros Hd Hm Hl. destruct st as [fs out]. simpl.
  by rewrite !mkdir_p_other.
Qed.

(** What [.env] holds after the step that creates it. *)
Lemma create_env_result st :
  (create_env st).1 !! ".env"
  = match st.1 !! ".env" with
    | Some e => Some e
    | None =>
        match st.1 !! ".env.example" with
        | Some (File content) => Some (File content)
        | _ => None
        end
    end.
Proof.
  destruct st as [fs out]. unfold create_env, is_file, cp. simpl.
  destruct (fs !! ".env") as [[c|]|] eqn:Henv; simpl.
  - done.
  - destruct (fs !! ".env.example") as [[c|]|]; simpl; [|done..].
    by rewrite lookup_insert_ne.
  - destruct (fs !! ".env.example") as [[c|]|]; simpl; [|done..].
    by rewrite lookup_insert_eq.
Qed.

Lemma create_env_template st :
  (create_env st).1 !! ".env.example" = st.1 !! ".env.example".
Proof.
  destruct st as [fs out]. unfold create_env, cp. simpl.
  destruct (negb (is_file ".env" fs)); [|done]. simpl.
  destruct (fs !! ".env.example") as [[c|]|] eqn:Ht; [|done..].
  destruct (fs !! ".env") as [[c'|]|]; by rewrite lookup_insert_ne.
Qed.

(** What [.env] holds when the script has run, in terms of what the
    project directory held before, when the programs leave the two files
    alone. *)
Lemma setup_sh_env fs :
  untouched python_venv pip_install npm_install ".env" ->
  untouched python_venv pip_install npm_install ".env.example" ->
  (setup_sh python_venv pip_install npm_install fs).1 !! ".env"
  = match fs !! ".env" with
    | Some e => Some e
    | None =>
        match fs !! ".env.example" with
        | Some (File content) => Some (File content)
        | _ => None
        end
    end.
Proof.
  intros Henv Htpl. unfold setup_sh.
  rewrite create_directories_other by done.
  rewrite install_node_other by done.
  rewrite create_env_result.
  rewrite !install_python_other, !create_venv_other by done.
  done.
Qed.

Lemma setup_sh_template fs :
  untouched python_venv pip_install npm_install ".env.example" ->
  (setup_sh python_venv pip_install npm_install fs).1 !! ".env.example"
  = fs !! ".env.example".
Proof.
  intros Htpl. unfold setup_sh.
  rewrite create_directories_other by done.
  rewrite install_node_other by done.
  rewrite create_env_template.
  rewrite install_python_other, create_venv_other by done.
  done.
Qed.

(** X13.  A [.env] the user has written is never overwritten: the script runs
    through and the file holds the same lines afterwards. *)
Theorem setup_keeps_env fs (content : list string) :
  untouched python_venv pip_install npm_install ".env" ->
  untouched python_venv pip_install npm_install ".env.example" ->
  fs !! ".env" = Some (File content) ->
  (setup_sh python_venv pip_install npm_install fs).1 !! ".env"
  = Some (File content).
Proof. intros Henv Htpl Hf. rewrite setup_sh_env by done. by rewrite Hf. Qed.

(** X14.  Without a [.env], the script leaves a copy of the template in its
    place, and the template where it was. *)
Theorem setup_creates_env fs (content : list string) :
  untouched python_venv pip_install npm_install ".env" ->
  untouched python_venv pip_install npm_install ".env.example" ->
  fs !! ".env" = None ->
  fs !! ".env.example" = Some (File content) ->
  (setup_sh python_venv pip_install npm_install fs).1 !! ".env"
  = Some (File content) /\
  (setup_sh python_venv pip_install npm_install fs).1 !! ".env.example"
  = Some (File content).
Proof.
  intros Henv Htpl Hn Hf. rewrite setup_sh_env, setup_sh_template by done.
  by rewrite Hn, Hf.
Qed.

(** X15.  Running the script again changes nothing about [.env]: what the first
    run left, the second run leaves. *)
Theorem setup_again_keeps_env fs :
  untouched python_venv pip_install npm_install ".env" ->
  untouched python_venv pip_install npm_install ".env.example" ->
  let once := (setup_sh python_venv pip_install npm_install fs).1 in
  (setup_sh python_venv pip_install npm_install once).1 !! ".env"
  = once !! ".env".
Proof.
  intros Henv Htpl once. unfold once.
  rewrite (setup_sh_env (setup_sh python_venv pip_install npm_install fs).1)
    by done.
  rewrite setup_sh_template by done.
  rewrite setup_sh_env by done.
  destruct (fs !! ".env") as [e|]; [done|].
  by destruct (fs !! ".env.example") as [[c|]|].
Qed.

Lemma output_grows (f : gmap string entry * list string
                        -> gmap string entry * list string) st line :
  (exists more, (f st).2 = (st.2 ++ more)%list) ->
  line ∈ st.2 -> line ∈ (f st).2.
Proof. intros [more ->] Hin. apply elem_of_app. by left. Qed.

Lemma install_node_output st :
  exists more, (install_node npm_install st).2 = (st.2 ++ more)%list.
Proof.
  destruct st as [fs out]. unfold install_node.
  destruct (is_file "package.json" fs); simpl.
  - by eexists.
  - exists []. by rewrite app_nil_r.
Qed.

(** X16.  With neither a [.env] nor a template to copy, no [.env] comes to be;
    the script still tells the user to edit it and ends by announcing
    that the setup is complete. *)
Theorem setup_without_template fs :
  untouched python_venv pip_install npm_install ".env" ->
  untouched python_venv pip_install npm_install ".env.example" ->
  fs !! ".env" = None ->
  is_file ".env.example" fs = false ->
  let result := setup_sh python_venv pip_install npm_install fs in
  result.1 !! ".env" = None /\
  "⚙️ Creating environment file..." ∈ result.2 /\
  "🔑 Please edit .env file with your API keys!" ∈ result.2 /\
  "✅ Setup complete!" ∈ result.2 /\
  last result.2 = Some "See ACTION_PLAN.md for detailed instructions.".
Proof.
  intros Henv Htpl Hn Hf result.
  split.
  { unfold result. rewrite setup_sh_env by done. rewrite Hn.
    unfold is_file in Hf. by destruct (fs !! ".env.example") as [[c|]|]. }
  assert (Hcreate : forall st,
    st.1 !! ".env" = None ->
    "⚙️ Creating environment file..." ∈ (create_env st).2 /\
    "🔑 Please edit .env file with your API keys!" ∈ (create_env st).2).
  { intros [fs0 out0] H0. unfold create_env, is_file. simpl in *.
    rewrite H0. simpl. split; apply elem_of_app; right.
    - by left.
    - right. by left. }
  set (st := install_python pip_install
               (create_venv python_venv
                  (fs, ["🚀 AI Trading Overlay System - Quick Start";
                        "========================================"]))).
  assert (Hst : st.1 !! ".env" = None).
  { unfold st. rewrite install_python_other, create_venv_other by done.
    done. }
  destruct (Hcreate st Hst) as [H1 H2].
  assert (Hfinal : forall st0,
    exists out0, (create_directories st0).2
      = (st0.2 ++ "✅ Setup complete!" :: out0)%list
      /\ last ("✅ Setup complete!" :: out0)
         = Some "See ACTION_PLAN.md for detailed instructions.").
  { intros [fs0 out0]. simpl. by eexists. }
  destruct (Hfinal (install_node npm_install (create_env st)))
    as (tail & Hout & Hlast).
  unfold result, setup_sh. fold st. rewrite Hout.
  repeat split.
  - apply elem_of_app. left.
    apply (output_grows (install_node npm_install));
      [apply install_node_output | exact H1].
  - apply elem_of_app. left.
    apply (output_grows (install_node npm_install));
      [apply install_node_output | exact H2].
  - apply elem_of_app. right. by left.
  - rewrite last_app. by rewrite Hlast.
Qed.

(** X17.  After the script, [data], [models] and [logs] exist whatever the
    programs did; each is a directory when no regular file had its name
    and the programs left it alone. *)
Theorem setup_creates_directories fs (path : string) :
  path ∈ ["data"; "models"; "logs"] ->
  let after := (setup_sh python_venv pip_install npm_install fs).1 in
  is_Some (after !! path) /\
  (untouched python_venv pip_install npm_install path ->
   is_file path fs = false ->
   after !! path = Some Dir).
Proof.
  intros Hpath after.
  set (st := install_node npm_install
               (create_env
                  (install_python pip_install
                     (create_venv python_venv
                        (fs, ["🚀 AI Trading Overlay System - Quick Start";
                              "========================================"]))))).
  assert (Hafter : after !! path
                   = match st.1 !! path with
                     | Some (File c) => Some (File c)
                     | _ => Some Dir
                     end).
  { unfold after, setup_sh. fold st. destruct st as [fs0 out0]. simpl.
    apply elem_of_cons in Hpath as [->|Hpath];
      [|apply elem_of_cons in Hpath as [->|Hpath];
        [|apply list_elem_of_singleton in Hpath as ->]].
    - rewrite !mkdir_p_other by done. apply mkdir_p_exists.
    - rewrite mkdir_p_other by done. rewrite mkdir_p_exists.
      by rewrite mkdir_p_other.
    - rewrite mkdir_p_exists. by rewrite !mkdir_p_other. }
  split.
  - rewrite Hafter. by destruct (st.1 !! path) as [[c|]|].
  - intros Hun Hf. rewrite Hafter.
    assert (Hst : st.1 !! path = fs !! path).
    { unfold st. rewrite install_node_other by done.
      assert (Hce : forall st0, (create_env st0).1 !! path = st0.1 !! path).
      { intros [fs0 out0]. unfold create_env, cp. simpl.
        destruct (negb (is_file ".env" fs0)); [|done]. simpl.
        destruct (fs0 !! ".env.example") as [[c|]|] eqn:Ht; [|done..].
        assert (path <> ".env" /\ path <> ".env/.env.example") as [? ?].
        { apply elem_of_cons in Hpath as [->|Hpath];
            [|apply elem_of_cons in Hpath as [->|Hpath];
              [|apply list_elem_of_singleton in Hpath as ->]]; done. }
        destruct (fs0 !! ".env") as [[c'|]|]; by rewrite lookup_insert_ne. }
      rewrite Hce.
      by rewrite install_python_other, create_venv_other. }
    rewrite Hst. unfold is_file in Hf.
    by destruct (fs !! path) as [[c|]|].
Qed.

End SetupFacts.

Lemma sample_programs_untouched (path : string) :
  path <> "venv" -> path <> "node_modules" ->
  Setup.untouched Setup.sample_venv Setup.sample_pip Setup.sample_npm path.
Proof.
  intros Hv Hn. unfold Setup.untouched, Setup.sample_venv, Setup.sample_pip,
    Setup.sample_npm.
  split; [|split]; intros fs.
  - by apply mkdir_p_other.
  - reflexivity.
  - by apply mkdir_p_other.
Qed.

Lemma setup_keeps_env_witness :
  (Setup.setup_sh Setup.sample_venv Setup.sample_pip Setup.sample_npm
     Setup.configured_checkout).1 !! ".env"
  = Some (Setup.File Env.custom_env).
Proof.
  apply (setup_keeps_env Setup.sample_venv Setup.sample_pip Setup.sample_npm
           Setup.configured_checkout Env.custom_env).
  - by apply sample_programs_untouched.
  - by apply sample_programs_untouched.
  - reflexivity.
Defined.

Lemma setup_creates_env_witness :
  (Setup.setup_sh Setup.sample_venv Setup.sample_pip Setup.sample_npm
     Setup.fresh_checkout).1 !! ".env"
  = Some (Setup.File Env.env_example) /\
  (Setup.setup_sh Setup.sample_venv Setup.sample_pip Setup.sample_npm
     Setup.fresh_checkout).1 !! ".env.example"
  = Some (Setup.File Env.env_example).
Proof.
  apply (setup_creates_env Setup.sample_venv Setup.sample_pip Setup.sample_npm
           Setup.fresh_checkout Env.env_example).
  - by apply sample_programs_untouched.
  - by apply sample_programs_untouched.
  - reflexivity.
  - reflexivity.
Defined.

Lemma setup_again_keeps_env_witness :
  let once :=
    (Setup.setup_sh Setup.sample_venv Setup.sample_pip Setup.sample_npm
       Setup.fresh_checkout).1 in
  (Setup.setup_sh Setup.sample_venv Setup.sample_pip Setup.sample_npm once).1
    !! ".env"
  = once !! ".env".
Proof.
  apply (setup_again_keeps_env Setup.sample_venv Setup.sample_pip
           Setup.sample_npm Setup.fresh_checkout).
  - by apply sample_programs_untouched.
  - by apply sample_programs_untouched.
Defined.

Lemma setup_without_template_witness :
  let result :=
    Setup.setup_sh Setup.sample_venv Setup.sample_pip Setup.sample_npm
      (∅ : gmap string Setup.entry) in
  result.1 !! ".env" = None /\
  "⚙️ Creating environment file..." ∈ result.2 /\
  "🔑 Please edit .env file with your API keys!" ∈ result.2 /\
  "✅ Setup complete!" ∈ result.2 /\
  last result.2 = Some "See ACTION_PLAN.md for detailed instructions.".
Proof.
  apply (setup_without_template Setup.sample_venv Setup.sample_pip
           Setup.sample_npm (∅ : gmap string Setup.entry)).
  - by apply sample_programs_untouched.
  - by apply sample_programs_untouched.
  - reflexivity.
  - reflexivity.
Defined.

Lemma setup_creates_directories_witness :
  let after :=
    (Setup.setup_sh Setup.sample_venv Setup.sample_pip Setup.sample_npm
       Setup.fresh_checkout).1 in
  is_Some (after !! "data") /\
  (Setup.untouched Setup.sample_venv Setup.sample_pip Setup.sample_npm "data" ->
   Setup.is_file "data" Setup.fresh_checkout = false ->
   after !! "data" = Some Setup.Dir).
Proof.
  apply (setup_creates_directories Setup.sample_venv Setup.sample_pip
           Setup.sample_npm Setup.fresh_checkout "data").
  by left.
Defined.
